(** * Quality control and packaging system: model and verification

    A shallow embedding of [settings.py], [models.py] and
    [quality_control_system.py] (whose persistence half is repeated in
    [persistence.py]), followed by the properties proved about it.

    Conventions of the model.
    - A Python [float] is an IEEE-754 binary64 number: Rocq's primitive
      [float].  The integer thresholds of [settings.py] are exactly
      representable, so comparing them with a float is the float comparison.
    - A Python [str] is a [string] whose characters are the code points
      below 256; [lower], [strip] and the ordering of [sorted] are the
      Python ones on that range.
    - An [Item] is a Python object: it has an identity ([Item.addr], what
      [id(obj)] returns).  [Item] defines no [__eq__], so [x in lst] and
      [lst.remove(x)] compare identities.  Objects are allocated from the
      counter [next_addr] of the state.
    - A JSON object read by [json.load] is a record of optional keys
      ([ItemDict], [BoxDict]); the values are of the types the classes
      declare.  A file whose text [json.load] rejects is [None].
    - The directory [BOX_DIR] is a finite map from file names to contents;
      [REJECTS_FILE] is absent, unreadable, or a list of item objects.
    - An uncaught Python exception ends the program: [Raise]. *)

From Stdlib Require Import ZArith List String Ascii Bool Lia Sorted.
From Stdlib Require Import Floats.PrimFloat.
From stdpp Require Import base option gmap strings list sorting pretty.

Local Open Scope Z_scope.
#[local] Set Warnings "-clear-no-such-hyp".

(** ** Python built-ins used by the program *)

Module Py.

(** [str.isspace] on one character (code points below 256). *)
Definition isspace (c : ascii) : bool :=
  let n := N_of_ascii c in
  ((9 <=? n) && (n <=? 13) || (28 <=? n) && (n <=? 32)
   || (n =? 133) || (n =? 160))%N.

(** [str.lower] on one character (code points below 256). *)
Definition lower_char (c : ascii) : ascii :=
  let n := N_of_ascii c in
  if ((65 <=? n) && (n <=? 90) || (192 <=? n) && (n <=? 214)
      || (216 <=? n) && (n <=? 222))%N
  then ascii_of_N (n + 32) else c.

Fixpoint lower (s : string) : string :=
  match s with
  | EmptyString => EmptyString
  | String c s' => String (lower_char c) (lower s')
  end.

Fixpoint lstrip (s : string) : string :=
  match s with
  | EmptyString => EmptyString
  | String c s' => if isspace c then lstrip s' else s
  end.

Fixpoint rstrip (s : string) : string :=
  match s with
  | EmptyString => EmptyString
  | String c s' =>
      match rstrip s' with
      | EmptyString => if isspace c then EmptyString else String c EmptyString
      | r => String c r
      end
  end.

Definition strip (s : string) : string := rstrip (lstrip s).

Definition startswith (s p : string) : bool := String.prefix p s.

Fixpoint endswith (s suf : string) : bool :=
  if String.eqb s suf then true
  else match s with
       | EmptyString => false
       | String _ s' => endswith s' suf
       end.

(** [sorted(l, key=...)]: [le x y] is [key x <= key y].  Python's sort is
    stable, and so is this insertion sort. *)
Fixpoint insort {A} (le : A → A → bool) (x : A) (l : list A) : list A :=
  match l with
  | [] => [x]
  | y :: l' => if le x y then x :: l else y :: insort le x l'
  end.

Definition sorted {A} (le : A → A → bool) (l : list A) : list A :=
  foldr (insort le) [] l.

(** [max(...)] of a non-empty sequence of integers ([ValueError] on an
    empty one, which the program never passes). *)
Definition max (l : list Z) : Z :=
  match l with
  | [] => 0
  | x :: l' => foldl Z.max x l'
  end.

(** [lst.remove(x)] on a list of identifiers: the first occurrence. *)
Fixpoint remove_str (x : string) (l : list string) : list string :=
  match l with
  | [] => []
  | y :: l' => if String.eqb x y then l' else y :: remove_str x l'
  end.

Definition in_str (x : string) (l : list string) : bool :=
  existsb (String.eqb x) l.

Fixpoint zeros (k : nat) : string :=
  match k with
  | O => EmptyString
  | S k' => String "0" (zeros k')
  end.

(** Digits left-padded with zeros to width [w]. *)
Definition zfill (w : nat) (s : string) : string :=
  zeros (w - String.length s) +:+ s.

(** [f"{n:04d}"]: sign-aware zero padding to a total width of four. *)
Definition format_04d (n : Z) : string :=
  match n with
  | Zneg p => "-" +:+ zfill 3 (pretty (Npos p))
  | _ => zfill 4 (pretty (Z.to_N n))
  end.

End Py.

(** ** settings.py *)

Definition MIN_WEIGHT : float := 95%float.
Definition MAX_WEIGHT : float := 105%float.
Definition MIN_LENGTH : float := 10%float.
Definition MAX_LENGTH : float := 20%float.
Definition ALLOWED_COLORS : gset string := {[ "azul"%string; "verde"%string ]}.
Definition BOX_CAPACITY : nat := 10.

(** ** models.py *)

(** The JSON object of an item, as [json.load] returns it. *)
Record ItemDict := mkItemDict {
  d_id : option string;
  d_weight : option float;
  d_color : option string;
  d_length : option float;
  d_approved : option bool;
  d_failure_reasons : option (list string)
}.

Module Item.

Record t := mk {
  addr : nat;
  id : string;
  weight : float;
  color : string;
  length : float;
  approved : bool;
  failure_reasons : list string
}.

(** [Item.__init__]; [a] is the identity of the new object.
    [failure_reasons or []] is the list itself. *)
Definition init (a : nat) (id : string) (weight : float) (color : string)
    (length : float) (approved : bool) (failure_reasons : list string) : t :=
  {| addr := a; id := id; weight := weight;
     color := Py.strip (Py.lower color); length := length;
     approved := approved; failure_reasons := failure_reasons |}.

Definition to_dict (self : t) : ItemDict :=
  {| d_id := Some (id self); d_weight := Some (weight self);
     d_color := Some (color self); d_length := Some (length self);
     d_approved := Some (approved self);
     d_failure_reasons := Some (failure_reasons self) |}.

(** [d["k"]] raises [KeyError] on a missing key ([None] here);
    [d.get("k", v)] falls back to [v]. *)
Definition from_dict (a : nat) (d : ItemDict) : option t :=
  i ← d_id d; w ← d_weight d; c ← d_color d; l ← d_length d;
  Some (init a i w c l (default false (d_approved d))
             (default [] (d_failure_reasons d))).

(** [[Item.from_dict(x) for x in xs]]: objects allocated from [n] on. *)
Fixpoint from_dicts (n : nat) (xs : list ItemDict) : option (list t * nat) :=
  match xs with
  | [] => Some ([], n)
  | x :: xs' =>
      it ← from_dict n x;
      '(its, n') ← from_dicts (S n) xs';
      Some (it :: its, n')
  end.

(** Identity of objects: [x is y]. *)
Definition same (x y : t) : bool := Nat.eqb (addr x) (addr y).

(** [x in lst]. *)
Definition is_in (x : t) (lst : list t) : bool := existsb (same x) lst.

(** [lst.remove(x)]: drops the first occurrence. *)
Fixpoint remove (x : t) (lst : list t) : list t :=
  match lst with
  | [] => []
  | y :: lst' => if same x y then lst' else y :: remove x lst'
  end.

End Item.

(** The JSON object of a box. *)
Record BoxDict := mkBoxDict {
  bd_id : option Z;
  bd_closed : option bool;
  bd_items : option (list ItemDict)
}.

Module Box.

Record t := mk {
  id : Z;
  closed : bool;
  items : list Item.t
}.

(** [Box.__init__]; [items or []] is the list itself. *)
Definition init (id : Z) (closed : bool) (items : list Item.t) : t :=
  {| id := id; closed := closed; items := items |}.

Definition full (self : t) : bool :=
  (BOX_CAPACITY <=? List.length (items self))%nat.

Definition to_dict (self : t) : BoxDict :=
  {| bd_id := Some (id self); bd_closed := Some (closed self);
     bd_items := Some (map Item.to_dict (items self)) |}.

Definition from_dict (n : nat) (d : BoxDict) : option (t * nat) :=
  i ← bd_id d;
  '(its, n') ← Item.from_dicts n (default [] (bd_items d));
  Some (init i (default false (bd_closed d)) its, n').

Definition set_items (self : t) (its : list Item.t) : t :=
  {| id := id self; closed := closed self; items := its |}.

Definition set_closed (self : t) (c : bool) : t :=
  {| id := id self; closed := c; items := items self |}.

End Box.

(** ** quality_control_system.py: state *)

(** What is on disk: the files of [BOX_DIR] by name ([None]: a text that
    [json.load] rejects), and [REJECTS_FILE] (absent, unreadable, or a list
    of item objects). *)
Record Disk := mkDisk {
  box_files : gmap string (option BoxDict);
  rejects_file : option (option (list ItemDict))
}.

(** The module-level variables, the disk, and the allocation counter. *)
Record State := mkState {
  items : gmap string Item.t;
  approved_items_ids : list string;
  not_approved_items_ids : list string;
  closed_boxes : list Box.t;
  open_box : option Box.t;
  disk : Disk;
  next_addr : nat
}.

(** The state of a process that has just started on disk [d]. *)
Definition initial_state (d : Disk) : State :=
  {| items := ∅; approved_items_ids := []; not_approved_items_ids := [];
     closed_boxes := []; open_box := None; disk := d; next_addr := O |}.

Inductive exn := AttributeError | KeyError.

Inductive result (A : Type) :=
  | Ok (a : A)
  | Raise (e : exn).
Arguments Ok {A} a.
Arguments Raise {A} e.

(** ** Persistence *)

Definition _box_filename (box_id : Z) : string :=
  "box_" +:+ Py.format_04d box_id +:+ ".json".

Definition save_box (box : Box.t) (d : Disk) : Disk :=
  {| box_files :=
       <[_box_filename (Box.id box) := Some (Box.to_dict box)]> (box_files d);
     rejects_file := rejects_file d |}.

(** [os.listdir(BOX_DIR)]: the names, in no particular order. *)
Definition listdir (d : Disk) : list string :=
  (map_to_list (box_files d)).*1.

(** The loop of [load_boxes] over the sorted names. *)
Fixpoint read_boxes (files : gmap string (option BoxDict))
    (names : list string) (n : nat) : list Box.t * nat :=
  match names with
  | [] => ([], n)
  | name :: rest =>
      if negb (Py.startswith name "box_") || negb (Py.endswith name ".json")
      then read_boxes files rest n
      else
        match files !! name with
        | Some (Some data) =>
            match Box.from_dict n data with
            | Some (b, n') =>
                let '(bs, n'') := read_boxes files rest n' in (b :: bs, n'')
            | None => read_boxes files rest n
            end
        | _ => read_boxes files rest n
        end
  end.

Definition box_id_le (b1 b2 : Box.t) : bool := (Box.id b1 <=? Box.id b2)%Z.

Definition load_boxes (d : Disk) (n : nat)
    : (list Box.t * option Box.t) * Disk * nat :=
  let '(boxes, n') :=
    read_boxes (box_files d) (Py.sorted String.leb (listdir d)) n in
  match boxes with
  | [] =>
      let new_box := Box.init 1 false [] in
      (([], Some new_box), save_box new_box d, n')
  | _ =>
      let open_candidates := List.filter (λ b, negb (Box.closed b)) boxes in
      let '(open_b, d') :=
        match last (Py.sorted box_id_le open_candidates) with
        | Some b => (b, d)
        | None =>
            let next_id := Py.max (map Box.id boxes) + 1 in
            let b := Box.init next_id false [] in
            (b, save_box b d)
        end in
      let closed := Py.sorted box_id_le (List.filter Box.closed boxes) in
      ((closed, Some open_b), d', n')
  end.

(** [[items[pid] for pid in ids]]: [KeyError] on an unknown identifier. *)
Fixpoint lookup_all (m : gmap string Item.t) (ids : list string)
    : option (list Item.t) :=
  match ids with
  | [] => Some []
  | pid :: ids' =>
      it ← m !! pid; its ← lookup_all m ids'; Some (it :: its)
  end.

Definition save_rejects (s : State) : result State :=
  match lookup_all (items s) (not_approved_items_ids s) with
  | None => Raise KeyError
  | Some its =>
      Ok {| items := items s;
            approved_items_ids := approved_items_ids s;
            not_approved_items_ids := not_approved_items_ids s;
            closed_boxes := closed_boxes s;
            open_box := open_box s;
            disk := {| box_files := box_files (disk s);
                       rejects_file := Some (Some (map Item.to_dict its)) |};
            next_addr := next_addr s |}
  end.

Definition load_rejects (d : Disk) (n : nat) : list Item.t * nat :=
  match rejects_file d with
  | None => ([], n)
  | Some None => ([], n)
  | Some (Some data) =>
      match Item.from_dicts n data with
      | Some (its, n') => (its, n')
      | None => ([], n)
      end
  end.

(** The two loops of [load_state]. *)
Definition index_box_item (acc : gmap string Item.t * list string)
    (it : Item.t) : gmap string Item.t * list string :=
  (<[Item.id it := it]> acc.1,
   if Item.approved it then acc.2 ++ [Item.id it] else acc.2).

Definition index_boxes (bs : list Box.t)
    : gmap string Item.t * list string :=
  foldl (λ acc b, foldl index_box_item acc (Box.items b)) (∅, []) bs.

Definition index_reject (acc : gmap string Item.t * list string)
    (it : Item.t) : gmap string Item.t * list string :=
  (<[Item.id it := it]> acc.1, acc.2 ++ [Item.id it]).

Definition load_state (s : State) : State :=
  let '((closed, open_b), d, n) := load_boxes (disk s) (next_addr s) in
  let '(its, approved) :=
    index_boxes (closed ++ match open_b with Some b => [b] | None => [] end) in
  let '(rejects, n') := load_rejects d n in
  let '(its', not_approved) := foldl index_reject (its, []) rejects in
  {| items := its'; approved_items_ids := approved;
     not_approved_items_ids := not_approved;
     closed_boxes := closed; open_box := open_b;
     disk := d; next_addr := n' |}.

(** ** Business rules *)

Definition store_item (item : Item.t) (s : State) : result State :=
  match open_box s with
  | None => Raise AttributeError
  | Some ob =>
      let ob := Box.set_items ob (Box.items ob ++ [item]) in
      if Box.full ob then
        let ob := Box.set_closed ob true in
        let d := save_box ob (disk s) in
        let nb := Box.init (Box.id ob + 1) false [] in
        Ok {| items := items s;
              approved_items_ids := approved_items_ids s;
              not_approved_items_ids := not_approved_items_ids s;
              closed_boxes := closed_boxes s ++ [ob];
              open_box := Some nb;
              disk := save_box nb d;
              next_addr := next_addr s |}
      else
        Ok {| items := items s;
              approved_items_ids := approved_items_ids s;
              not_approved_items_ids := not_approved_items_ids s;
              closed_boxes := closed_boxes s;
              open_box := Some ob;
              disk := save_box ob (disk s);
              next_addr := next_addr s |}
  end.

Definition REASON_WEIGHT : string := "Peso fora da faixa".
Definition REASON_COLOR : string := "Cor inv" +:+ String "225"%char "lida".
Definition REASON_LENGTH : string := "Comprimento fora da faixa".

Definition weight_in_range (w : float) : bool :=
  (MIN_WEIGHT <=? w)%float && (w <=? MAX_WEIGHT)%float.
Definition color_allowed (c : string) : bool :=
  bool_decide (c ∈ ALLOWED_COLORS).
Definition length_in_range (l : float) : bool :=
  (MIN_LENGTH <=? l)%float && (l <=? MAX_LENGTH)%float.

Definition evaluate_item (item : Item.t) : Item.t :=
  let reasons := [] in
  let reasons :=
    if negb (weight_in_range (Item.weight item))
    then reasons ++ [REASON_WEIGHT] else reasons in
  let reasons :=
    if negb (color_allowed (Item.color item))
    then reasons ++ [REASON_COLOR] else reasons in
  let reasons :=
    if negb (length_in_range (Item.length item))
    then reasons ++ [REASON_LENGTH] else reasons in
  match reasons with
  | _ :: _ =>
      {| Item.addr := Item.addr item; Item.id := Item.id item;
         Item.weight := Item.weight item; Item.color := Item.color item;
         Item.length := Item.length item;
         Item.approved := false; Item.failure_reasons := reasons |}
  | [] =>
      {| Item.addr := Item.addr item; Item.id := Item.id item;
         Item.weight := Item.weight item; Item.color := Item.color item;
         Item.length := Item.length item;
         Item.approved := true; Item.failure_reasons := [] |}
  end.

(** What the user types at the prompts of [register_item]; [None] is a text
    that [float] rejects ([ValueError]). *)
Record RegisterInput := mkRegisterInput {
  in_id : string;
  in_weight : option float;
  in_color : string;
  in_length : option float
}.

(** How [register_item] ends, by the message it prints. *)
Inductive register_outcome :=
  | EmptyId
  | DuplicateId
  | InvalidInput
  | RegisteredApproved
  | RegisteredRejected.

Definition register_item (inp : RegisterInput) (s : State)
    : result (register_outcome * State) :=
  let id := Py.strip (in_id inp) in
  if String.eqb id "" then Ok (EmptyId, s)
  else if bool_decide (is_Some (items s !! id)) then Ok (DuplicateId, s)
  else
    match in_weight inp, in_length inp with
    | Some weight, Some length =>
        let color := Py.strip (in_color inp) in
        let item := Item.init (next_addr s) id weight color length false [] in
        let item := evaluate_item item in
        let s1 := {| items := <[id := item]> (items s);
                     approved_items_ids := approved_items_ids s;
                     not_approved_items_ids := not_approved_items_ids s;
                     closed_boxes := closed_boxes s;
                     open_box := open_box s;
                     disk := disk s;
                     next_addr := S (next_addr s) |} in
        if Item.approved item then
          let s2 := {| items := items s1;
                       approved_items_ids := approved_items_ids s1 ++ [id];
                       not_approved_items_ids := not_approved_items_ids s1;
                       closed_boxes := closed_boxes s1;
                       open_box := open_box s1;
                       disk := disk s1;
                       next_addr := next_addr s1 |} in
          match store_item item s2 with
          | Ok s3 => Ok (RegisteredApproved, s3)
          | Raise e => Raise e
          end
        else
          let s2 := {| items := items s1;
                       approved_items_ids := approved_items_ids s1;
                       not_approved_items_ids :=
                         not_approved_items_ids s1 ++ [id];
                       closed_boxes := closed_boxes s1;
                       open_box := open_box s1;
                       disk := disk s1;
                       next_addr := next_addr s1 |} in
          match save_rejects s2 with
          | Ok s3 => Ok (RegisteredRejected, s3)
          | Raise e => Raise e
          end
    | _, _ => Ok (InvalidInput, s)
    end.

(** The loop of [remove_item] over the closed boxes: the first box that
    holds the item loses it and is saved; the loop then stops. *)
Fixpoint remove_from_closed (item : Item.t) (bs : list Box.t) (d : Disk)
    : list Box.t * Disk :=
  match bs with
  | [] => ([], d)
  | b :: bs' =>
      if Item.is_in item (Box.items b) then
        let b' := Box.set_items b (Item.remove item (Box.items b)) in
        (b' :: bs', save_box b' d)
      else
        let '(bs'', d') := remove_from_closed item bs' d in (b :: bs'', d')
  end.

Inductive remove_outcome :=
  | NotFound
  | Removed.

Definition remove_item (typed : string) (s : State)
    : result (remove_outcome * State) :=
  let id := Py.strip typed in
  match items s !! id with
  | None => Ok (NotFound, s)
  | Some item =>
      if Item.approved item then
        match open_box s with
        | None => Raise AttributeError
        | Some ob =>
            let '(ob', closed', d') :=
              if Item.is_in item (Box.items ob) then
                let ob' := Box.set_items ob (Item.remove item (Box.items ob)) in
                (ob', closed_boxes s, save_box ob' (disk s))
              else
                let '(closed', d') :=
                  remove_from_closed item (closed_boxes s) (disk s) in
                (ob, closed', d') in
            let approved' :=
              if Py.in_str id (approved_items_ids s)
              then Py.remove_str id (approved_items_ids s)
              else approved_items_ids s in
            Ok (Removed,
                {| items := delete id (items s);
                   approved_items_ids := approved';
                   not_approved_items_ids := not_approved_items_ids s;
                   closed_boxes := closed';
                   open_box := Some ob';
                   disk := d';
                   next_addr := next_addr s |})
        end
      else
        let r :=
          if Py.in_str id (not_approved_items_ids s) then
            save_rejects
              {| items := items s;
                 approved_items_ids := approved_items_ids s;
                 not_approved_items_ids :=
                   Py.remove_str id (not_approved_items_ids s);
                 closed_boxes := closed_boxes s;
                 open_box := open_box s;
                 disk := disk s;
                 next_addr := next_addr s |}
          else Ok s in
        match r with
        | Raise e => Raise e
        | Ok s1 =>
            Ok (Removed,
                {| items := delete id (items s1);
                   approved_items_ids := approved_items_ids s1;
                   not_approved_items_ids := not_approved_items_ids s1;
                   closed_boxes := closed_boxes s1;
                   open_box := open_box s1;
                   disk := disk s1;
                   next_addr := next_addr s1 |})
        end
  end.

(** The lines of [generate_final_report] that read the open box: its
    identifier, the number of its items and their identifiers. *)
Definition report_open_box (s : State) : result (Z * nat * list string) :=
  match open_box s with
  | None => Raise AttributeError
  | Some ob =>
      Ok (Box.id ob, List.length (Box.items ob), map Item.id (Box.items ob))
  end.

(** ** Vocabulary of the properties *)

(** A colour that [Item.__init__] leaves as it is: no upper-case letter,
    no white space at either end. *)
Fixpoint all_lower (s : string) : bool :=
  match s with
  | EmptyString => true
  | String c s' => Ascii.eqb (Py.lower_char c) c && all_lower s'
  end.

Definition first_char (s : string) : option ascii :=
  match s with
  | EmptyString => None
  | String c _ => Some c
  end.

Fixpoint last_char (s : string) : option ascii :=
  match s with
  | EmptyString => None
  | String c EmptyString => Some c
  | String _ s' => last_char s'
  end.

Definition is_space_opt (o : option ascii) : bool :=
  match o with
  | None => false
  | Some c => Py.isspace c
  end.

Definition normalized_color (s : string) : bool :=
  all_lower s && negb (is_space_opt (first_char s))
  && negb (is_space_opt (last_char s)).

(** Two items carry the same data (they may be different objects). *)
Definition same_attributes (x y : Item.t) : Prop :=
  Item.id x = Item.id y ∧ Item.weight x = Item.weight y ∧
  Item.color x = Item.color y ∧ Item.length x = Item.length y ∧
  Item.approved x = Item.approved y ∧
  Item.failure_reasons x = Item.failure_reasons y.

(** The box records that [load_boxes] manages to read, in reading order. *)
Definition parsed_boxes (d : Disk) (n : nat) : list Box.t :=
  (read_boxes (box_files d) (Py.sorted String.leb (listdir d)) n).1.

(** The states the program goes through: [main] calls [load_state], then
    serves registrations and removals (listing and reporting change
    nothing). *)
Inductive Reachable : State → Prop :=
  | reach_load s0 : Reachable (load_state s0)
  | reach_register s inp o s' :
      Reachable s → register_item inp s = Ok (o, s') → Reachable s'
  | reach_remove s typed o s' :
      Reachable s → remove_item typed s = Ok (o, s') → Reachable s'.

(** Auxiliary notions for the injectivity of the file names: a string
    that starts with a character other than the digit zero, and a string
    without its leading zeros. *)
Definition nonzero_head (s : string) : Prop :=
  ∃ c s', s = String c s' ∧ c ≠ "0"%char.

Fixpoint lstrip0 (s : string) : string :=
  match s with
  | EmptyString => EmptyString
  | String c s' => if Ascii.eqb c "0" then lstrip0 s' else s
  end.

(** The open-box reference is set, and the box it points at is open. *)
Definition open_box_ok (s : State) : Prop :=
  ∃ b, open_box s = Some b ∧ Box.closed b = false.

(** ** Sample data for the examples *)

Definition empty_disk : Disk := {| box_files := ∅; rejects_file := None |}.

(** The JSON object of an approved item. *)
Definition good_item_dict (i : string) : ItemDict :=
  {| d_id := Some i; d_weight := Some 100%float; d_color := Some "azul"%string;
     d_length := Some 15%float; d_approved := Some true;
     d_failure_reasons := Some [] |}.

(** The JSON object of a box. *)
Definition box_dict (i : Z) (c : bool) (its : list ItemDict) : BoxDict :=
  {| bd_id := Some i; bd_closed := Some c; bd_items := Some its |}.

(** A directory whose only record is box 1, not closed, with ten items
    ([BOX_CAPACITY]) already in it. *)
Definition overfull_disk : Disk :=
  {| box_files :=
       {[ "box_0001.json"%string :=
            Some (box_dict 1 false
                    (map (λ k : nat, good_item_dict ("P" +:+ pretty k))
                         (seq 1 10))) ]};
     rejects_file := None |}.

(** ** Contents of objects, whatever their identities *)

(** The same item, allocated [k] places further. *)
Definition shift_item (k : nat) (it : Item.t) : Item.t :=
  {| Item.addr := k + Item.addr it; Item.id := Item.id it;
     Item.weight := Item.weight it; Item.color := Item.color it;
     Item.length := Item.length it; Item.approved := Item.approved it;
     Item.failure_reasons := Item.failure_reasons it |}.

Definition shift_box (k : nat) (b : Box.t) : Box.t :=
  {| Box.id := Box.id b; Box.closed := Box.closed b;
     Box.items := map (shift_item k) (Box.items b) |}.

(** What the five in-memory indexes hold, as dictionaries: two runs of the
    program build different objects, and are compared by this. *)
Record Indexes := mkIndexes {
  ix_items : gmap string ItemDict;
  ix_approved : list string;
  ix_rejected : list string;
  ix_closed : list BoxDict;
  ix_open : option BoxDict
}.

Definition indexes (s : State) : Indexes :=
  {| ix_items := Item.to_dict <$> items s;
     ix_approved := approved_items_ids s;
     ix_rejected := not_approved_items_ids s;
     ix_closed := map Box.to_dict (closed_boxes s);
     ix_open := Box.to_dict <$> open_box s |}.

(** A file name that [load_boxes] takes for a box record. *)
Definition box_name (name : string) : bool :=
  Py.startswith name "box_" && Py.endswith name ".json".

(** A JSON object that [Box.from_dict] accepts. *)
Definition readable (data : BoxDict) : Prop :=
  is_Some (Box.from_dict 0 data).

(** Every readable record found in the file of box [k] is the record of
    box [k] (the files that [save_box] writes are so). *)
Definition well_keyed (d : Disk) : Prop :=
  ∀ k data,
    box_files d !! _box_filename k = Some (Some data) →
    readable data → bd_id data = Some k.

(** All the items of a list of boxes, box after box. *)
Definition items_of (bs : list Box.t) : list Item.t :=
  concat (map Box.items bs).

(** A directory with two records that are not closed: box 1 holds the
    approved item P1, box 2 is empty. *)
Definition two_open_disk : Disk :=
  {| box_files :=
       {[ "box_0001.json"%string :=
            Some (box_dict 1 false [good_item_dict "P1"]);
          "box_0002.json"%string := Some (box_dict 2 false []) ]};
     rejects_file := None |}.

(** A directory whose only record, that of the closed box 1 holding P1,
    sits in the file of box 2. *)
Definition misfiled_disk : Disk :=
  {| box_files :=
       {[ "box_0002.json"%string :=
            Some (box_dict 1 true [good_item_dict "P1"]) ]};
     rejects_file := None |}.

(** ** The invariant of the state *)

(** The boxes in memory: the closed ones, then the open one. *)
Definition all_boxes (s : State) : list Box.t :=
  closed_boxes s ++ match open_box s with
                    | Some b => [b]
                    | None => []
                    end.

(** [it in b.items]. *)
Definition holds (it : Item.t) (b : Box.t) : bool :=
  Item.is_in it (Box.items b).

(** In how many boxes the object is. *)
Definition box_count (it : Item.t) (s : State) : nat :=
  length (List.filter (holds it) (all_boxes s)).

(** Every approved identifier resolves to an approved item that is in
    exactly one box. *)
Definition approved_ok (s : State) : Prop :=
  ∀ i, i ∈ approved_items_ids s →
       ∃ it, items s !! i = Some it ∧ Item.approved it = true ∧
             box_count it s = 1%nat.

(** Every rejected identifier resolves to a rejected item. *)
Definition rejected_ok (s : State) : Prop :=
  ∀ i, i ∈ not_approved_items_ids s →
       ∃ it, items s !! i = Some it ∧ Item.approved it = false.

(** No item of the reject set is in a box. *)
Definition rejects_unboxed (s : State) : Prop :=
  ∀ i it, i ∈ not_approved_items_ids s → items s !! i = Some it →
          box_count it s = 0%nat.

Definition state_invariant (s : State) : Prop :=
  approved_ok s ∧ rejected_ok s ∧ rejects_unboxed s.

(** The objects of the state were allocated before [next_addr], and no
    object is indexed under two identifiers. *)
Definition heap_ok (s : State) : Prop :=
  (∀ i it, items s !! i = Some it → (Item.addr it < next_addr s)%nat) ∧
  Forall (λ b, Forall (λ it, (Item.addr it < next_addr s)%nat) (Box.items b))
    (all_boxes s) ∧
  (∀ i j it1 it2, items s !! i = Some it1 → items s !! j = Some it2 →
                  Item.addr it1 = Item.addr it2 → i = j).

(** What the operations rely on besides: no identifier is listed twice,
    and there is an open box. *)
Definition well_formed (s : State) : Prop :=
  NoDup (approved_items_ids s) ∧ NoDup (not_approved_items_ids s) ∧
  is_Some (open_box s) ∧ heap_ok s.


(** A directory with one closed box holding P1 and P2. *)
Definition closed_disk : Disk :=
  {| box_files :=
       {[ "box_0001.json"%string :=
            Some (box_dict 1 true [good_item_dict "P1"; good_item_dict "P2"])
       ]};
     rejects_file := None |}.

(** ** Vocabulary of the further properties *)

(** A JSON object that has the four keys [Item.from_dict] requires. *)
Definition item_dict_complete (x : ItemDict) : bool :=
  bool_decide (is_Some (d_id x)) && bool_decide (is_Some (d_weight x))
  && bool_decide (is_Some (d_color x)) && bool_decide (is_Some (d_length x)).

(** The open box has room left and no closed box holds more than
    [BOX_CAPACITY] items. *)
Definition within_capacity (s : State) : Prop :=
  (∃ ob, open_box s = Some ob ∧
         (length (Box.items ob) < BOX_CAPACITY)%nat) ∧
  Forall (λ b, (length (Box.items b) ≤ BOX_CAPACITY)%nat) (closed_boxes s).

(** ** quality_control_system.py: the final report *)

(** [d[reason] = d.get(reason, 0) + 1] on a Python dict, which keeps its
    keys in insertion order: a known reason is counted where it stands, a
    new one comes last. *)
Fixpoint bump (reason : string) (d : list (string * nat))
    : list (string * nat) :=
  match d with
  | [] => [(reason, 1%nat)]
  | (k, q) :: d' =>
      if String.eqb k reason then (k, S q) :: d'
      else (k, q) :: bump reason d'
  end.

(** The two nested loops of [generate_final_report] over the rejected
    items and their reasons. *)
Definition count_reasons (its : list Item.t) : list (string * nat) :=
  foldl (λ d it, foldl (λ d reason, bump reason d) d (Item.failure_reasons it))
    [] its.

(** The figures of the report, in the order of its lines; the section of
    the reasons is there only when some item is rejected.  The text of
    the report is modelled by the figures it shows. *)
Record Report := mkReport {
  total_approved : nat;
  total_not_approved : nat;
  reasons_section : option (list (string * nat));
  total_boxes : nat;
  open_box_id : Z;
  open_box_size : nat;
  open_box_ids : list string
}.

(** The first part of [generate_final_report], which builds
    [report_text] from the indexes: the lookups of the rejected
    identifiers and the reference to the open box are where it can fail. *)
Definition report_text (s : State) : result Report :=
  let total_aproved := length (approved_items_ids s) in
  let total_not_approved := length (not_approved_items_ids s) in
  let total_boxes := length (closed_boxes s) in
  let section :=
    match total_not_approved with
    | O => Ok None
    | S _ =>
        match lookup_all (items s) (not_approved_items_ids s) with
        | None => Raise KeyError
        | Some its => Ok (Some (count_reasons its))
        end
    end in
  match section with
  | Raise e => Raise e
  | Ok sec =>
      match open_box s with
      | None => Raise AttributeError
      | Some ob =>
          Ok {| total_approved := total_aproved;
                total_not_approved := total_not_approved;
                reasons_section := sec;
                total_boxes := total_boxes;
                open_box_id := Box.id ob;
                open_box_size := length (Box.items ob);
                open_box_ids := map Item.id (Box.items ob) |}
      end
  end.

(** The directory [REPORT_DIR]: [None] when it does not exist, else its
    files by name, a report file holding the text of a report. *)
Definition ReportDir := option (gmap string Report).

(** The name of the report file, from the clock reading
    [datetime.now().strftime(...)]. *)
Definition report_path (ts : string) : string :=
  "relatorio_" +:+ ts +:+ ".txt".

(** How a run of [generate_final_report] ends: the report is printed and
    saved; or building the text raises, before anything is printed; or the
    report is printed and [open] raises [FileNotFoundError], the function
    being the one that writes without calling [_ensure_dirs]. *)
Inductive report_outcome :=
  | ReportSaved (rep : Report) (files : gmap string Report)
  | ReportRaise (e : exn)
  | FileNotFoundError (printed : Report).

Definition generate_final_report (ts : string) (dir : ReportDir) (s : State)
    : report_outcome :=
  match report_text s with
  | Raise e => ReportRaise e
  | Ok rep =>
      match dir with
      | None => FileNotFoundError rep
      | Some files => ReportSaved rep (<[report_path ts := rep]> files)
      end
  end.

(** The count that a dictionary of reasons gives for a reason (zero when
    the reason is not a key). *)
Fixpoint count_for (reason : string) (d : list (string * nat)) : nat :=
  match d with
  | [] => O
  | (k, q) :: d' => if String.eqb k reason then q else count_for reason d'
  end.

(** How many times a reason occurs in a list of reasons. *)
Definition occurrences (reason : string) (l : list string) : nat :=
  length (List.filter (String.eqb reason) l).



(** * Properties *)

(** ** Python built-ins *)

Lemma append_cons (c : ascii) (a b : string) :
  String c a +:+ b = String c (a +:+ b).
Proof. reflexivity. Qed.

Lemma append_assoc (a b c : string) : a +:+ (b +:+ c) = (a +:+ b) +:+ c.
Proof.
  induction a as [|x a IH]; [done|]. by rewrite !append_cons, IH.
Qed.

Lemma length_append (a b : string) :
  String.length (a +:+ b) = (String.length a + String.length b)%nat.
Proof.
  induction a as [|x a IH]; [done|]. rewrite append_cons. simpl. by rewrite IH.
Qed.

Lemma append_inj_l (a b s : string) : a +:+ s = b +:+ s → a = b.
Proof.
  revert b. induction a as [|x a IH]; intros [|y b] H.
  - done.
  - apply (f_equal String.length) in H.
    rewrite !length_append in H. simpl in H. lia.
  - apply (f_equal String.length) in H.
    rewrite !length_append in H. simpl in H. lia.
  - rewrite !append_cons in H. injection H as -> H. f_equal. by apply IH.
Qed.

Lemma endswith_cons (c : ascii) (s suf : string) :
  Py.endswith (String c s) suf =
  if String.eqb (String c s) suf then true else Py.endswith s suf.
Proof. reflexivity. Qed.

Lemma endswith_app (a suf : string) : Py.endswith (a +:+ suf) suf = true.
Proof.
  induction a as [|c a IH].
  - destruct suf; simpl; [done|]. by rewrite Ascii.eqb_refl, String.eqb_refl.
  - rewrite append_cons, endswith_cons. by destruct (String.eqb _ _).
Qed.

Lemma box_filename_matches (k : Z) :
  Py.startswith (_box_filename k) "box_" = true ∧
  Py.endswith (_box_filename k) ".json" = true.
Proof.
  split.
  - unfold _box_filename, Py.startswith. rewrite !append_cons. simpl.
    by destruct ("" +:+ Py.format_04d k +:+ ".json").
  - unfold _box_filename. rewrite append_assoc. apply endswith_app.
Qed.

(** *** Decimal formatting is injective *)

Lemma pretty_N_go_head (x : N) (acc : string) :
  (0 < x)%N → nonzero_head (pretty_N_go x acc).
Proof.
  revert acc. induction (N.lt_wf_0 x) as [x _ IH]; intros acc Hx.
  rewrite pretty_N_go_step by done.
  destruct (decide (x `div` 10 = 0)%N) as [Hd|Hd].
  - rewrite Hd, pretty_N_go_0. eexists _, _. split; [done|].
    assert (x < 10)%N by (apply N.div_small_iff in Hd; lia).
    rewrite N.mod_small by done.
    assert (x = 1 ∨ x = 2 ∨ x = 3 ∨ x = 4 ∨ x = 5 ∨ x = 6
            ∨ x = 7 ∨ x = 8 ∨ x = 9)%N as Hcases by lia.
    by repeat (destruct Hcases as [->|Hcases]; [done|]); subst.
  - apply IH; [apply N.div_lt; lia | by apply N.neq_0_lt_0].
Qed.

Lemma pretty_N_pos_head (x : N) : (0 < x)%N → nonzero_head (pretty x).
Proof.
  intros Hx. unfold pretty, pretty_N. case_decide; [lia|].
  by apply pretty_N_go_head.
Qed.

Lemma pretty_N_ne_dash (x : N) (s : string) : pretty x ≠ "-" +:+ s.
Proof.
  unfold pretty, pretty_N. case_decide; [done|].
  by apply pretty_N_go_ne_dash.
Qed.

Lemma lstrip0_zeros (k : nat) (s : string) :
  lstrip0 (Py.zeros k +:+ s) = lstrip0 s.
Proof.
  induction k as [|k IH]; [done|].
  change (Py.zeros (S k)) with (String "0" (Py.zeros k)).
  rewrite append_cons. exact IH.
Qed.

Lemma lstrip0_nonzero_head (s : string) : nonzero_head s → lstrip0 s = s.
Proof.
  intros (c & s' & -> & Hc). simpl.
  destruct (Ascii.eqb_spec c "0"); [done|done].
Qed.

Lemma lstrip0_pretty (x : N) :
  lstrip0 (pretty x) = if decide (x = 0%N) then EmptyString else pretty x.
Proof.
  case_decide as Hx; [by subst|].
  apply lstrip0_nonzero_head, pretty_N_pos_head. lia.
Qed.

Lemma zfill_pretty_inj (w1 w2 : nat) (x y : N) :
  Py.zfill w1 (pretty x) = Py.zfill w2 (pretty y) → x = y.
Proof.
  unfold Py.zfill. intros H. apply (f_equal lstrip0) in H.
  rewrite !lstrip0_zeros, !lstrip0_pretty in H.
  repeat case_decide; subst; try done.
  - destruct (pretty_N_pos_head y) as (? & ? & Hy & _); [lia|].
    rewrite Hy in H. done.
  - destruct (pretty_N_pos_head x) as (? & ? & Hy & _); [lia|].
    rewrite Hy in H. done.
  - by apply (inj pretty).
Qed.

Lemma zfill_pretty_ne_dash (w : nat) (x : N) (s : string) :
  Py.zfill w (pretty x) ≠ "-" +:+ s.
Proof.
  unfold Py.zfill. destruct (w - String.length (pretty x))%nat; simpl.
  - apply pretty_N_ne_dash.
  - by rewrite append_cons.
Qed.

Lemma format_04d_inj (n m : Z) : Py.format_04d n = Py.format_04d m → n = m.
Proof.
  unfold Py.format_04d.
  destruct n as [|p|p], m as [|q|q]; intros H;
    try (by apply zfill_pretty_inj in H; lia);
    try (by apply zfill_pretty_ne_dash in H);
    try (by symmetry in H; apply zfill_pretty_ne_dash in H).
  rewrite !append_cons in H. injection H as H. simpl in H.
  apply zfill_pretty_inj in H. congruence.
Qed.

Lemma box_filename_inj (n m : Z) : _box_filename n = _box_filename m → n = m.
Proof.
  unfold _box_filename. intros H.
  apply (inj (append "box_")) in H. apply append_inj_l in H.
  by apply format_04d_inj.
Qed.

(** *** [sorted] *)

Section sorting.
Context {A : Type} (le : A → A → bool).

Lemma insort_perm (x : A) (l : list A) : Py.insort le x l ≡ₚ x :: l.
Proof.
  induction l as [|y l IH]; simpl; [done|].
  destruct (le x y); [done|]. rewrite IH. apply perm_swap.
Qed.

Lemma sorted_perm (l : list A) : Py.sorted le l ≡ₚ l.
Proof.
  induction l as [|x l IH]; simpl; [done|].
  fold (Py.sorted le l). by rewrite insort_perm, IH.
Qed.

Lemma sorted_nil_inv (l : list A) : Py.sorted le l = [] → l = [].
Proof.
  intros H. apply Permutation_nil. by rewrite <-H, sorted_perm.
Qed.

(** Inserting puts the element somewhere and keeps the others in place. *)
Lemma insort_split (x : A) (l : list A) :
  ∃ l1 l2, l = l1 ++ l2 ∧ Py.insort le x l = l1 ++ x :: l2.
Proof.
  induction l as [|y l (l1 & l2 & -> & IH)]; simpl.
  - by exists [], [].
  - destruct (le x y).
    + by exists [], (y :: l1 ++ l2).
    + exists (y :: l1), l2. by rewrite IH.
Qed.

Hypothesis le_total : ∀ x y, le x y = true ∨ le y x = true.
Hypothesis le_trans : ∀ x y z, le x y = true → le y z = true → le x z = true.

Lemma insort_sorted (x : A) (l : list A) :
  StronglySorted (λ a b, le a b = true) l →
  StronglySorted (λ a b, le a b = true) (Py.insort le x l).
Proof.
  induction 1 as [|y l Hl IH Hy]; simpl.
  - by repeat constructor.
  - destruct (le x y) eqn:Hxy.
    + constructor; [by constructor|]. constructor; [done|].
      eapply Forall_impl; [exact Hy|]. intros z Hz. by eapply le_trans.
    + constructor; [done|]. rewrite insort_perm. constructor; [|done].
      by destruct (le_total x y) as [Hle|Hle]; [congruence|].
Qed.

Lemma sorted_sorted (l : list A) :
  StronglySorted (λ a b, le a b = true) (Py.sorted le l).
Proof.
  induction l as [|x l IH]; simpl; [constructor|].
  by apply insort_sorted.
Qed.

Lemma sorted_last_max (l : list A) (b : A) :
  last (Py.sorted le l) = Some b →
  b ∈ l ∧ ∀ x, x ∈ l → le x b = true.
Proof.
  intros Hlast.
  destruct (last_Some (Py.sorted le l) b) as [[l' Hl'] _]; [done|].
  pose proof (sorted_sorted l) as Hs. pose proof (sorted_perm l) as Hp.
  rewrite Hl' in Hs, Hp. split.
  - rewrite <-Hp. set_solver.
  - intros x Hx. rewrite <-Hp in Hx. apply elem_of_app in Hx as [Hx|Hx].
    + apply StronglySorted_app in Hs as (Hs & _ & _). apply Hs; set_solver.
    + apply list_elem_of_singleton in Hx as ->.
      by destruct (le_total b b).
Qed.

End sorting.

Lemma sorted_map_keys {A B : Type} (f : A → B) (le : B → B → bool)
    (l : list A) :
  map f (Py.sorted (λ x y, le (f x) (f y)) l) = Py.sorted le (map f l).
Proof.
  induction l as [|x l IH]; [done|]. simpl.
  fold (Py.sorted (λ x y, le (f x) (f y)) l). fold (Py.sorted le (map f l)).
  rewrite <-IH. generalize (Py.sorted (λ x y, le (f x) (f y)) l) as k.
  clear. induction k as [|y k IH]; [done|]. simpl.
  destruct (le (f x) (f y)); [done|]. simpl. by rewrite IH.
Qed.

Lemma box_id_le_total (x y : Box.t) :
  box_id_le x y = true ∨ box_id_le y x = true.
Proof. unfold box_id_le. lia. Qed.

Lemma box_id_le_trans (x y z : Box.t) :
  box_id_le x y = true → box_id_le y z = true → box_id_le x z = true.
Proof. unfold box_id_le. lia. Qed.

Lemma string_leb_trans (x y z : string) :
  String.leb x y = true → String.leb y z = true → String.leb x z = true.
Proof.
  intros H1 H2.
  assert (String.le x z) as H; [|by apply Is_true_true_1].
  transitivity y; by apply Is_true_true_2.
Qed.

(** *** [lower] and [strip] *)

Lemma lower_all_lower (s : string) : all_lower s = true → Py.lower s = s.
Proof.
  induction s as [|c s IH]; simpl; [done|].
  intros [Hc Hs]%andb_true_iff. apply Ascii.eqb_eq in Hc.
  by rewrite Hc, IH.
Qed.

Lemma lstrip_no_space (s : string) :
  is_space_opt (first_char s) = false → Py.lstrip s = s.
Proof. destruct s as [|c s]; simpl; [done|]. by intros ->. Qed.

Lemma rstrip_no_space (s : string) :
  is_space_opt (last_char s) = false → Py.rstrip s = s.
Proof.
  induction s as [|c s IH]; [done|].
  destruct s as [|c' s].
  - simpl. by intros ->.
  - intros H. change (last_char (String c (String c' s)))
      with (last_char (String c' s)) in H.
    change (Py.rstrip (String c (String c' s))) with
      (match Py.rstrip (String c' s) with
       | EmptyString => if Py.isspace c then EmptyString else String c EmptyString
       | r => String c r
       end).
    by rewrite IH.
Qed.

Lemma strip_lower_normalized (s : string) :
  normalized_color s = true → Py.strip (Py.lower s) = s.
Proof.
  unfold normalized_color. intros [[Hl Hf]%andb_true_iff Hr]%andb_true_iff.
  apply negb_true_iff in Hf, Hr.
  rewrite lower_all_lower by done. unfold Py.strip.
  rewrite lstrip_no_space by done. by apply rstrip_no_space.
Qed.

(** ** The evaluator *)

Example evaluate_scenario_approved :
  let item := evaluate_item (Item.init 0 "P1" 100 "Azul " 15 false []) in
  Item.approved item = true ∧ Item.failure_reasons item = [] ∧
  Item.color item = "azul"%string.
Proof. by vm_compute. Qed.

Example evaluate_scenario_rejected :
  let item := evaluate_item (Item.init 0 "P2" 200 "preto" 5 false []) in
  Item.approved item = false ∧
  Item.failure_reasons item = [REASON_WEIGHT; REASON_COLOR; REASON_LENGTH].
Proof. by vm_compute. Qed.

Example evaluate_nan_rejected :
  Item.failure_reasons (evaluate_item (Item.init 0 "P3" nan "verde" 10 false []))
  = [REASON_WEIGHT].
Proof. by vm_compute. Qed.

(** C2. Evaluation is a function of the item's weight, colour and length
    alone, leaves the identifier and those three attributes as they are,
    and runs three independent checks in the order weight range, allowed
    colour, length range: the reasons are the concatenation, in that order,
    of one reason per failed check (each check contributes whether or not
    the earlier ones failed).  The colour it tests is the one
    [Item.__init__] normalized (lower case, stripped).  The item is
    approved exactly when no reason was collected: approved items have an
    empty list of reasons and rejected ones a non-empty list.  Evaluating
    again changes nothing. *)
Theorem evaluate_item_verdict (item : Item.t) :
  let item' := evaluate_item item in
  let weight_ok :=
    ((95 <=? Item.weight item)%float && (Item.weight item <=? 105)%float) in
  let color_ok := bool_decide (Item.color item ∈ ALLOWED_COLORS) in
  let length_ok :=
    ((10 <=? Item.length item)%float && (Item.length item <=? 20)%float) in
  (Item.addr item' = Item.addr item ∧ Item.id item' = Item.id item ∧
   Item.weight item' = Item.weight item ∧ Item.color item' = Item.color item ∧
   Item.length item' = Item.length item) ∧
  Item.failure_reasons item' =
    (if weight_ok then [] else [REASON_WEIGHT]) ++
    (if color_ok then [] else [REASON_COLOR]) ++
    (if length_ok then [] else [REASON_LENGTH]) ∧
  Item.approved item' = weight_ok && color_ok && length_ok ∧
  (Item.approved item' = true ↔ Item.failure_reasons item' = []) ∧
  (Item.approved item' = false ↔ Item.failure_reasons item' ≠ []) ∧
  evaluate_item item' = item' ∧
  (∀ other : Item.t,
     Item.weight other = Item.weight item →
     Item.color other = Item.color item →
     Item.length other = Item.length item →
     Item.approved (evaluate_item other) = Item.approved item' ∧
     Item.failure_reasons (evaluate_item other) = Item.failure_reasons item') ∧
  (∀ a i w c l ap fr,
     Item.color (Item.init a i w c l ap fr) = Py.strip (Py.lower c)).
Proof.
  cbv zeta.
  assert (∀ it : Item.t,
    evaluate_item it =
    Item.mk (Item.addr it) (Item.id it) (Item.weight it) (Item.color it)
      (Item.length it)
      (weight_in_range (Item.weight it) && color_allowed (Item.color it)
       && length_in_range (Item.length it))
      ((if weight_in_range (Item.weight it) then [] else [REASON_WEIGHT]) ++
       (if color_allowed (Item.color it) then [] else [REASON_COLOR]) ++
       (if length_in_range (Item.length it) then [] else [REASON_LENGTH])))
    as Heval.
  { intros it. unfold evaluate_item.
    by destruct (weight_in_range _), (color_allowed _), (length_in_range _). }
  change ((95 <=? Item.weight item)%float && (Item.weight item <=? 105)%float)
    with (weight_in_range (Item.weight item)).
  change ((10 <=? Item.length item)%float && (Item.length item <=? 20)%float)
    with (length_in_range (Item.length item)).
  change (bool_decide (Item.color item ∈ ALLOWED_COLORS))
    with (color_allowed (Item.color item)).
  rewrite !Heval. simpl.
  split_and!; try done.
  - by destruct (weight_in_range _), (color_allowed _), (length_in_range _).
  - by destruct (weight_in_range _), (color_allowed _), (length_in_range _).
  - intros other Hw Hc Hl. rewrite Heval. simpl. by rewrite Hw, Hc, Hl.
Qed.

(** ** Serialization *)

Lemma from_dicts_cons (n : nat) (x : ItemDict) (xs : list ItemDict) :
  Item.from_dicts n (x :: xs) =
  it ← Item.from_dict n x;
  '(its, n') ← Item.from_dicts (S n) xs;
  Some (it :: its, n').
Proof. reflexivity. Qed.

(** C9. An item whose colour is already lower case with no white space at
    either end survives [to_dict] then [from_dict] with the same
    identifier, weight, colour, length, approval flag and reasons; hence a
    box of such items survives with the same identifier, closed flag and
    items, in the same order. *)
Theorem dict_round_trip :
  (∀ (item : Item.t) (a : nat),
     normalized_color (Item.color item) = true →
     ∃ item', Item.from_dict a (Item.to_dict item) = Some item' ∧
              same_attributes item' item) ∧
  (∀ (box : Box.t) (n : nat),
     Forall (λ it, normalized_color (Item.color it) = true) (Box.items box) →
     ∃ box' n', Box.from_dict n (Box.to_dict box) = Some (box', n') ∧
                Box.id box' = Box.id box ∧
                Box.closed box' = Box.closed box ∧
                Forall2 same_attributes (Box.items box') (Box.items box)).
Proof.
  assert (∀ (item : Item.t) (a : nat),
     normalized_color (Item.color item) = true →
     ∃ item', Item.from_dict a (Item.to_dict item) = Some item' ∧
              same_attributes item' item) as Hitem.
  { intros item a Hc. eexists. split; [done|].
    unfold same_attributes. simpl. by rewrite strip_lower_normalized. }
  split; [done|].
  intros [i c its] n Hits. unfold Box.from_dict, Box.to_dict. simpl in *.
  assert (∃ its' n', Item.from_dicts n (map Item.to_dict its) = Some (its', n')
                     ∧ Forall2 same_attributes its' its) as (its' & n' & -> & ?).
  { revert n. induction Hits as [|it its Hit _ IH]; intros n.
    - by eexists _, _.
    - rewrite map_cons, from_dicts_cons.
      destruct (Hitem it n Hit) as (it' & -> & ?).
      destruct (IH (S n)) as (its' & n' & -> & ?). simpl.
      eexists _, _. split; [done|]. by constructor. }
  simpl. by eexists _, _.
Qed.

Lemma dict_round_trip_witness :
  let item := Item.mk 7 "P1" 100 "azul" 15 true [] in
  let box := Box.mk 3 true [item] in
  (∃ item', Item.from_dict 0 (Item.to_dict item) = Some item' ∧
            same_attributes item' item) ∧
  (∃ box' n', Box.from_dict 0 (Box.to_dict box) = Some (box', n') ∧
              Box.id box' = Box.id box ∧ Box.closed box' = Box.closed box ∧
              Forall2 same_attributes (Box.items box') (Box.items box)).
Proof.
  split.
  - apply (proj1 dict_round_trip). reflexivity.
  - apply (proj2 dict_round_trip). repeat constructor.
Defined.

(** ** Refused operations *)

(** C6. Removing an identifier that is not in the item index answers
    "not found" and returns the very same state (item map, both orders of
    identifiers, all boxes, the disk).  Registering an identifier that is
    already in the index is refused as a duplicate (as an empty identifier
    when it is the empty string), whatever weight, colour and length are
    typed (they are not even read, so nothing is evaluated), and returns
    the very same state. *)
Theorem refused_operation_keeps_state (s : State) :
  (∀ typed : string,
     items s !! Py.strip typed = None →
     remove_item typed s = Ok (NotFound, s)) ∧
  (∀ inp : RegisterInput,
     is_Some (items s !! Py.strip (in_id inp)) →
     ∃ o, register_item inp s = Ok (o, s) ∧
          (Py.strip (in_id inp) ≠ ""%string → o = DuplicateId) ∧
          (Py.strip (in_id inp) = ""%string → o = EmptyId)).
Proof.
  split.
  - intros typed H. unfold remove_item. by rewrite H.
  - intros inp Hin. unfold register_item.
    destruct (String.eqb_spec (Py.strip (in_id inp)) "") as [Heq|Hne].
    + by exists EmptyId.
    + rewrite bool_decide_eq_true_2 by done. by exists DuplicateId.
Qed.

(** ** The open box *)

Lemma load_boxes_open (d : Disk) (n : nat) :
  ∃ b, (load_boxes d n).1.1.2 = Some b ∧ Box.closed b = false.
Proof.
  unfold load_boxes.
  destruct (read_boxes _ _ _) as [[|b0 boxes] n']; [by eexists|].
  cbv beta iota zeta.
  destruct (last (Py.sorted box_id_le _)) as [b|] eqn:Hlast; cbn [fst snd].
  - exists b. split; [done|].
    apply sorted_last_max in Hlast as [Hb _];
      [|apply box_id_le_total|apply box_id_le_trans].
    apply list_elem_of_In, filter_In in Hb as [_ Hb].
    by apply negb_true_iff.
  - by eexists.
Qed.

Lemma load_state_fields (s : State) :
  closed_boxes (load_state s) = (load_boxes (disk s) (next_addr s)).1.1.1 ∧
  open_box (load_state s) = (load_boxes (disk s) (next_addr s)).1.1.2 ∧
  box_files (disk (load_state s))
  = box_files (load_boxes (disk s) (next_addr s)).1.2 ∧
  disk (load_state s) = (load_boxes (disk s) (next_addr s)).1.2.
Proof.
  unfold load_state.
  destruct (load_boxes _ _) as [[[closed open_b] d] n].
  destruct (index_boxes _) as [its approved].
  destruct (load_rejects _ _) as [rejects n'].
  by destruct (foldl index_reject _ _).
Qed.

Lemma load_state_open (s0 : State) : open_box_ok (load_state s0).
Proof.
  unfold open_box_ok. destruct (load_state_fields s0) as (_ & -> & _).
  apply load_boxes_open.
Qed.

Lemma store_item_open (item : Item.t) (s : State) :
  open_box_ok s → ∃ s', store_item item s = Ok s' ∧ open_box_ok s'.
Proof.
  intros (ob & Hob & Hc). unfold store_item. rewrite Hob.
  destruct (Box.full _); eexists; (split; [done|]); by eexists.
Qed.

Lemma save_rejects_open_box (s s' : State) :
  save_rejects s = Ok s' →
  open_box s' = open_box s ∧ closed_boxes s' = closed_boxes s ∧
  items s' = items s ∧ approved_items_ids s' = approved_items_ids s ∧
  not_approved_items_ids s' = not_approved_items_ids s ∧
  box_files (disk s') = box_files (disk s) ∧ next_addr s' = next_addr s.
Proof.
  unfold save_rejects. destruct (lookup_all _ _); [|done].
  by intros [= <-].
Qed.

Lemma register_item_open (inp : RegisterInput) (s : State) :
  open_box_ok s →
  register_item inp s ≠ Raise AttributeError ∧
  ∀ o s', register_item inp s = Ok (o, s') → open_box_ok s'.
Proof.
  intros Hs. unfold register_item.
  destruct (String.eqb _ _); [by split; [|intros ?? [= <- <-]]|].
  destruct (bool_decide _); [by split; [|intros ?? [= <- <-]]|].
  destruct (in_weight inp) as [w|]; [|by split; [|intros ?? [= <- <-]]].
  destruct (in_length inp) as [l|]; [|by split; [|intros ?? [= <- <-]]].
  destruct (Item.approved _).
  - match goal with |- context [store_item ?i ?s2] =>
      destruct (store_item_open i s2) as (s3 & -> & Hs3); [exact Hs|] end.
    split; [done|]. by intros ?? [= <- <-].
  - match goal with |- context [save_rejects ?s2] =>
      destruct (save_rejects s2) as [s3|e] eqn:Hsave end.
    + split; [done|]. intros ?? [= <- <-].
      apply save_rejects_open_box in Hsave as (Ho & _).
      unfold open_box_ok. by rewrite Ho.
    + unfold save_rejects in Hsave. destruct (lookup_all _ _); [done|].
      injection Hsave as <-. by split.
Qed.

Lemma remove_item_open (typed : string) (s : State) :
  open_box_ok s →
  remove_item typed s ≠ Raise AttributeError ∧
  ∀ o s', remove_item typed s = Ok (o, s') → open_box_ok s'.
Proof.
  intros (ob & Hob & Hc). unfold remove_item.
  destruct (items s !! _) as [item|];
    [|split; [done|]; intros ?? [= <- <-]; by exists ob].
  destruct (Item.approved item).
  - rewrite Hob. destruct (Item.is_in _ _).
    + split; [done|]. intros ?? [= <- <-]. by eexists.
    + destruct (remove_from_closed _ _ _). split; [done|].
      intros ?? [= <- <-]. by eexists.
  - destruct (Py.in_str _ _).
    + match goal with |- context [save_rejects ?s2] =>
        destruct (save_rejects s2) as [s3|e] eqn:Hsave end.
      * split; [done|]. intros ?? [= <- <-].
        apply save_rejects_open_box in Hsave as (Ho & _).
        exists ob. simpl in *. by rewrite Ho.
      * unfold save_rejects in Hsave. destruct (lookup_all _ _); [done|].
        injection Hsave as <-. by split.
    + split; [done|]. intros ?? [= <- <-]. by exists ob.
Qed.

Lemma reachable_open (s : State) : Reachable s → open_box_ok s.
Proof.
  induction 1 as [s0|s inp o s' _ IH Hreg|s typed o s' _ IH Hrem].
  - apply load_state_open.
  - by eapply register_item_open.
  - by eapply remove_item_open.
Qed.

(** C10. [load_boxes] returns an open box on every path, so after
    [load_state] the open-box reference is set; it stays set through every
    registration and removal, so that storing an item, removing one and
    reporting never find the reference unset ([AttributeError] on
    [None]). *)
Theorem open_box_never_missing :
  (∀ (d : Disk) (n : nat), ∃ b, (load_boxes d n).1.1.2 = Some b) ∧
  (∀ s0 : State, ∃ b, open_box (load_state s0) = Some b) ∧
  (∀ s : State, Reachable s →
     (∃ b, open_box s = Some b) ∧
     (∀ item, ∃ s', store_item item s = Ok s') ∧
     (∀ inp, register_item inp s ≠ Raise AttributeError) ∧
     (∀ typed, remove_item typed s ≠ Raise AttributeError) ∧
     (∃ r, report_open_box s = Ok r)).
Proof.
  split_and!.
  - intros d n. destruct (load_boxes_open d n) as (b & ? & _). by exists b.
  - intros s0. destruct (load_state_open s0) as (b & ? & _). by exists b.
  - intros s Hs%reachable_open. split_and!.
    + destruct Hs as (b & ? & _). by exists b.
    + intros item. destruct (store_item_open item s Hs) as (s' & ? & _).
      by exists s'.
    + intros inp. by apply register_item_open.
    + intros typed. by apply remove_item_open.
    + destruct Hs as (b & Hb & _). unfold report_open_box. rewrite Hb.
      by eexists.
Qed.

(** ** Saving a box *)

Lemma save_box_lookup (b : Box.t) (d : Disk) :
  box_files (save_box b d) !! _box_filename (Box.id b)
  = Some (Some (Box.to_dict b)).
Proof. unfold save_box. simpl. apply lookup_insert_eq. Qed.

Lemma save_box_lookup_ne (b : Box.t) (d : Disk) (name : string) :
  name ≠ _box_filename (Box.id b) →
  box_files (save_box b d) !! name = box_files d !! name.
Proof. intros H. unfold save_box. simpl. by apply lookup_insert_ne. Qed.

Lemma save_box_rejects (b : Box.t) (d : Disk) :
  rejects_file (save_box b d) = rejects_file d.
Proof. reflexivity. Qed.

(** ** The packer *)

(** C1 (as the code has it).  Storing an item into the open box: when the
    box, with the item appended, holds [BOX_CAPACITY] items or more, it is
    marked closed, saved, appended to the closed boxes, and a new box
    numbered one more, open and empty, is saved and becomes the open box;
    otherwise the box, still open, is saved as it is.  Either way the
    record on disk of the box that was open is the dictionary of that box
    as it is in memory, the open-box reference points at a box that is
    neither full nor closed, and nothing else changes. *)
Theorem store_item_packs (s : State) (ob : Box.t) (item : Item.t) :
  open_box s = Some ob →
  Box.closed ob = false →
  let filled := Box.set_items ob (Box.items ob ++ [item]) in
  let shut := Box.set_closed filled true in
  let fresh := Box.init (Box.id ob + 1) false [] in
  ∃ s', store_item item s = Ok s' ∧
    (if (BOX_CAPACITY <=? length (Box.items ob) + 1)%nat then
       closed_boxes s' = closed_boxes s ++ [shut] ∧
       open_box s' = Some fresh ∧
       disk s' = save_box fresh (save_box shut (disk s)) ∧
       box_files (disk s') !! _box_filename (Box.id ob)
       = Some (Some (Box.to_dict shut)) ∧
       box_files (disk s') !! _box_filename (Box.id ob + 1)
       = Some (Some (Box.to_dict fresh))
     else
       closed_boxes s' = closed_boxes s ∧
       open_box s' = Some filled ∧
       disk s' = save_box filled (disk s) ∧
       box_files (disk s') !! _box_filename (Box.id ob)
       = Some (Some (Box.to_dict filled))) ∧
    (∃ nb, open_box s' = Some nb ∧ Box.full nb = false ∧
           Box.closed nb = false) ∧
    items s' = items s ∧
    approved_items_ids s' = approved_items_ids s ∧
    not_approved_items_ids s' = not_approved_items_ids s ∧
    rejects_file (disk s') = rejects_file (disk s).
Proof.
  intros Hob Hc. cbv zeta. unfold store_item. rewrite Hob.
  unfold Box.full. cbn [Box.items Box.set_items].
  rewrite length_app. cbn [length].
  destruct (BOX_CAPACITY <=? length (Box.items ob) + 1)%nat eqn:Hfull.
  - eexists. split; [done|]. cbn [closed_boxes open_box disk items
      approved_items_ids not_approved_items_ids].
    split_and!; try done.
    + rewrite save_box_lookup_ne.
      * exact (save_box_lookup
                 (Box.set_closed (Box.set_items ob (Box.items ob ++ [item]))
                    true) (disk s)).
      * intros H%box_filename_inj. cbn in H. lia.
    + exact (save_box_lookup (Box.init (Box.id ob + 1) false []) _).
    + by eexists.
  - eexists. split; [done|]. cbn [closed_boxes open_box disk items
      approved_items_ids not_approved_items_ids].
    split_and!; try done.
    + exact (save_box_lookup (Box.set_items ob (Box.items ob ++ [item]))
               (disk s)).
    + eexists. split; [done|]. unfold Box.full.
      cbn [Box.items Box.set_items Box.closed].
      by rewrite length_app.
Qed.

Lemma store_item_packs_witness :
  let s := load_state (initial_state empty_disk) in
  let item := evaluate_item (Item.init 0 "P1" 100 "azul" 15 false []) in
  ∃ s', store_item item s = Ok s' ∧
    open_box s' = Some (Box.mk 1 false [item]) ∧
    closed_boxes s' = [] ∧
    box_files (disk s') !! _box_filename 1
    = Some (Some (Box.to_dict (Box.mk 1 false [item]))).
Proof.
  cbv zeta.
  destruct (store_item_packs (load_state (initial_state empty_disk))
              (Box.mk 1 false [])
              (evaluate_item (Item.init 0 "P1" 100 "azul" 15 false []))
              eq_refl eq_refl)
    as (s' & Hs' & (Hc & Ho & _ & Hd) & _).
  exists s'. split; [exact Hs'|]. split; [exact Ho|]. split; [exact Hc|].
  exact Hd.
Defined.

(** C1 as stated fails: with ten items already in the open box (a record
    read from disk), the eleventh makes the size eleven, which is not the
    capacity, and yet the box is closed and replaced instead of staying
    the open box. *)
Lemma store_item_size_equal_counterexample :
  let s := load_state (initial_state overfull_disk) in
  let item := evaluate_item (Item.init 10 "P11" 100 "azul" 15 false []) in
  ∃ ob s',
    open_box s = Some ob ∧ Box.closed ob = false ∧
    store_item item s = Ok s' ∧
    length (Box.items ob ++ [item]) = 11%nat ∧
    length (Box.items ob ++ [item]) ≠ BOX_CAPACITY ∧
    open_box s' ≠ Some (Box.set_items ob (Box.items ob ++ [item])) ∧
    open_box s' = Some (Box.init 2 false []) ∧
    closed_boxes s'
    = [Box.set_closed (Box.set_items ob (Box.items ob ++ [item])) true].
Proof.
  cbv zeta. eexists _, _.
  split; [vm_compute; reflexivity|].
  split; [reflexivity|].
  split; [vm_compute; reflexivity|].
  split; [reflexivity|].
  split; [by vm_compute|].
  split; [by vm_compute|].
  split; reflexivity.
Qed.

(** ** Removal *)

Lemma remove_from_closed_none (item : Item.t) (bs : list Box.t) (d : Disk) :
  Forall (λ b, Item.is_in item (Box.items b) = false) bs →
  remove_from_closed item bs d = (bs, d).
Proof.
  induction 1 as [|b bs Hb _ IH]; simpl; [done|]. by rewrite Hb, IH.
Qed.

Lemma remove_from_closed_first (item : Item.t) (bs : list Box.t) (d : Disk) :
  Exists (λ b, Item.is_in item (Box.items b) = true) bs →
  ∃ pre b post,
    bs = pre ++ b :: post ∧
    Forall (λ b0, Item.is_in item (Box.items b0) = false) pre ∧
    Item.is_in item (Box.items b) = true ∧
    remove_from_closed item bs d
    = (pre ++ Box.set_items b (Item.remove item (Box.items b)) :: post,
       save_box (Box.set_items b (Item.remove item (Box.items b))) d).
Proof.
  induction bs as [|b bs IH]; intros Hex; [by inv Hex|].
  simpl. destruct (Item.is_in item (Box.items b)) eqn:Hb.
  - by exists [], b, bs.
  - inv Hex; [congruence|].
    destruct IH as (pre & b1 & post & -> & Hpre & Hb1 & ->); [done|].
    exists (b :: pre), b1, post. split_and!; try done. by constructor.
Qed.

Lemma remove_from_closed_flags (item : Item.t) (bs : list Box.t) (d : Disk) :
  map Box.closed (remove_from_closed item bs d).1 = map Box.closed bs ∧
  map Box.id (remove_from_closed item bs d).1 = map Box.id bs.
Proof.
  induction bs as [|b bs [IH1 IH2]]; simpl; [done|].
  destruct (Item.is_in item (Box.items b)); [done|].
  destruct (remove_from_closed item bs d). simpl in *. by rewrite IH1, IH2.
Qed.

Lemma remove_item_flags (typed : string) (s : State) (o : remove_outcome)
    (s' : State) :
  remove_item typed s = Ok (o, s') →
  map Box.closed (closed_boxes s') = map Box.closed (closed_boxes s) ∧
  map Box.id (closed_boxes s') = map Box.id (closed_boxes s) ∧
  Box.closed <$> open_box s' = Box.closed <$> open_box s ∧
  Box.id <$> open_box s' = Box.id <$> open_box s.
Proof.
  unfold remove_item.
  destruct (items s !! _) as [item|]; [|by intros [= <- <-]; split_and!].
  destruct (Item.approved item).
  - destruct (open_box s) as [ob|]; [|done].
    destruct (Item.is_in item (Box.items ob)).
    + by intros [= <- <-]; split_and!.
    + pose proof (remove_from_closed_flags item (closed_boxes s) (disk s))
        as [H1 H2].
      destruct (remove_from_closed _ _ _). by intros [= <- <-]; split_and!.
  - destruct (Py.in_str _ _).
    + match goal with |- context [save_rejects ?s2] =>
        destruct (save_rejects s2) as [s3|e] eqn:Hsave end; [|done].
      apply save_rejects_open_box in Hsave as (Ho & Hcl & _).
      intros [= <- <-]. simpl in *. rewrite Ho, Hcl. by split_and!.
    + by intros [= <- <-]; split_and!.
Qed.

Lemma item_remove_first (x : Item.t) (l : list Item.t) :
  Item.is_in x l = true →
  ∃ l1 y l2, l = l1 ++ y :: l2 ∧ Item.is_in x l1 = false ∧
             Item.same x y = true ∧ Item.remove x l = l1 ++ l2.
Proof.
  induction l as [|y l IH]; [done|]. cbn [Item.is_in existsb Item.remove].
  destruct (Item.same x y) eqn:Hy.
  - intros _. by exists [], y, l.
  - intros Hin. destruct (IH Hin) as (l1 & z & l2 & -> & Hl1 & Hz & ->).
    exists (y :: l1), z, l2. split_and!; try done.
    cbn [Item.is_in existsb]. by rewrite Hy.
Qed.

Lemma is_in_fresh_addr (x : Item.t) (l : list Item.t) :
  Item.addr x ∉ map Item.addr l → Item.is_in x l = false.
Proof.
  induction l as [|y l IH]; [done|]. cbn [map Item.is_in existsb].
  intros Hnot. apply not_elem_of_cons in Hnot as [Hne Hnot].
  unfold Item.same at 1. apply Nat.eqb_neq in Hne. rewrite Hne. by apply IH.
Qed.

Lemma item_remove_gone (x : Item.t) (l : list Item.t) :
  Item.is_in x l = true → NoDup (map Item.addr l) →
  Item.is_in x (Item.remove x l) = false.
Proof.
  intros Hin Hnd.
  destruct (item_remove_first x l Hin) as (l1 & y & l2 & -> & Hl1 & Hy & ->).
  rewrite map_app, map_cons in Hnd.
  apply NoDup_app in Hnd as (_ & _ & Hnd). apply NoDup_cons in Hnd as [Hy2 _].
  unfold Item.is_in. rewrite existsb_app. fold (Item.is_in x l1).
  rewrite Hl1. apply is_in_fresh_addr.
  unfold Item.same in Hy. apply Nat.eqb_eq in Hy. by rewrite Hy.
Qed.

(** C5. Removing an approved item that is in one of the closed boxes and
    not in the open box: the closed boxes are searched in order, the first
    one that holds the item loses it, that box and no other is written to
    disk, with its closed flag and identifier as they were, however few
    items it has left; the other closed boxes and the open box are as
    before.  Losing the item means: the first occurrence of the object is
    taken out of the box's list and the other items stay in their order,
    so the box holds one item less, and the object is no longer in the box
    when the box did not hold it twice; the entry of the identifier leaves
    the item map.  And no removal at all, whatever it removes, changes the
    closed flag or the identifier of any box. *)
Theorem remove_item_from_closed_box (s : State) (typed : string)
    (item : Item.t) (ob : Box.t) :
  items s !! Py.strip typed = Some item →
  Item.approved item = true →
  open_box s = Some ob →
  Item.is_in item (Box.items ob) = false →
  Exists (λ b, Item.is_in item (Box.items b) = true) (closed_boxes s) →
  (∃ pre b post s',
     closed_boxes s = pre ++ b :: post ∧
     Forall (λ b0, Item.is_in item (Box.items b0) = false) pre ∧
     Item.is_in item (Box.items b) = true ∧
     remove_item typed s = Ok (Removed, s') ∧
     let b' := Box.set_items b (Item.remove item (Box.items b)) in
     closed_boxes s' = pre ++ b' :: post ∧
     Box.closed b' = Box.closed b ∧ Box.id b' = Box.id b ∧
     open_box s' = Some ob ∧
     disk s' = save_box b' (disk s) ∧
     box_files (disk s') !! _box_filename (Box.id b)
     = Some (Some (Box.to_dict b')) ∧
     (∀ name, name ≠ _box_filename (Box.id b) →
        box_files (disk s') !! name = box_files (disk s) !! name) ∧
     (∃ l1 x l2,
        Box.items b = l1 ++ x :: l2 ∧ Item.is_in item l1 = false ∧
        Item.same item x = true ∧ Box.items b' = l1 ++ l2) ∧
     S (length (Box.items b')) = length (Box.items b) ∧
     (NoDup (map Item.addr (Box.items b)) →
      Item.is_in item (Box.items b') = false) ∧
     items s' = delete (Py.strip typed) (items s)) ∧
  (∀ typed0 s0 o s0',
     remove_item typed0 s0 = Ok (o, s0') →
     map Box.closed (closed_boxes s0') = map Box.closed (closed_boxes s0) ∧
     map Box.id (closed_boxes s0') = map Box.id (closed_boxes s0) ∧
     Box.closed <$> open_box s0' = Box.closed <$> open_box s0 ∧
     Box.id <$> open_box s0' = Box.id <$> open_box s0).
Proof.
  intros Hitem Happ Hob Hnot Hex. split; [|apply remove_item_flags].
  destruct (remove_from_closed_first item (closed_boxes s) (disk s) Hex)
    as (pre & b & post & Hcl & Hpre & Hb & Hrem).
  exists pre, b, post. eexists. split; [done|]. split; [done|]. split; [done|].
  unfold remove_item. rewrite Hitem, Happ, Hob, Hnot, Hrem.
  split; [done|]. cbv zeta. cbn [closed_boxes open_box disk items].
  destruct (item_remove_first item (Box.items b) Hb)
    as (l1 & x & l2 & Hsplit & Hl1 & Hx & Hrest).
  split_and!; try done.
  - exact (save_box_lookup (Box.set_items b (Item.remove item (Box.items b)))
             (disk s)).
  - intros name Hname. by apply save_box_lookup_ne.
  - by exists l1, x, l2.
  - cbn. rewrite Hrest, Hsplit, !length_app. cbn. lia.
  - intros Hnd. by apply item_remove_gone.
Qed.

(** ** Object identities do not matter to what is read *)

Lemma item_to_dict_shift (k : nat) (it : Item.t) :
  Item.to_dict (shift_item k it) = Item.to_dict it.
Proof. reflexivity. Qed.

Lemma box_to_dict_shift (k : nat) (b : Box.t) :
  Box.to_dict (shift_box k b) = Box.to_dict b.
Proof.
  unfold Box.to_dict, shift_box. simpl. do 2 f_equal.
  rewrite map_map. by apply map_ext.
Qed.

Lemma item_from_dict_shift (k a : nat) (x : ItemDict) :
  Item.from_dict (k + a) x = shift_item k <$> Item.from_dict a x.
Proof.
  unfold Item.from_dict.
  by destruct (d_id x), (d_weight x), (d_color x), (d_length x).
Qed.

Lemma item_from_dicts_shift (k n : nat) (xs : list ItemDict) :
  Item.from_dicts (k + n) xs
  = (λ r, (map (shift_item k) r.1, (k + r.2)%nat)) <$> Item.from_dicts n xs.
Proof.
  revert n. induction xs as [|x xs IH]; intros n; [done|].
  rewrite !from_dicts_cons, item_from_dict_shift.
  destruct (Item.from_dict n x) as [it|]; [|done]. simpl.
  replace (S (k + n)) with (k + S n)%nat by lia. rewrite IH.
  by destruct (Item.from_dicts (S n) xs) as [[its n']|].
Qed.

Lemma box_from_dict_shift (k n : nat) (data : BoxDict) :
  Box.from_dict (k + n) data
  = (λ r, (shift_box k r.1, (k + r.2)%nat)) <$> Box.from_dict n data.
Proof.
  unfold Box.from_dict. destruct (bd_id data) as [i|]; [|done]. simpl.
  rewrite item_from_dicts_shift.
  by destruct (Item.from_dicts n _) as [[its n']|].
Qed.

Lemma box_from_dict_readable (n : nat) (data : BoxDict) :
  is_Some (Box.from_dict n data) ↔ readable data.
Proof.
  unfold readable. replace n with (n + 0)%nat by lia.
  rewrite box_from_dict_shift. by rewrite fmap_is_Some.
Qed.

Lemma box_from_dict_id (n : nat) (data : BoxDict) (b : Box.t) (n' : nat) :
  Box.from_dict n data = Some (b, n') → bd_id data = Some (Box.id b).
Proof.
  unfold Box.from_dict. destruct (bd_id data) as [i|]; [|done]. simpl.
  destruct (Item.from_dicts n _) as [[its n'']|]; [|done].
  by intros [= <- _].
Qed.

Lemma read_boxes_shift (files : gmap string (option BoxDict))
    (names : list string) (k n : nat) :
  read_boxes files names (k + n)
  = (map (shift_box k) (read_boxes files names n).1,
     (k + (read_boxes files names n).2)%nat).
Proof.
  revert n. induction names as [|name names IH]; intros n; [done|].
  simpl. destruct (negb _ || negb _); [apply IH|].
  destruct (files !! name) as [[data|]|]; [|apply IH..].
  rewrite box_from_dict_shift.
  destruct (Box.from_dict n data) as [[b n']|]; simpl; [|apply IH].
  rewrite IH. by destruct (read_boxes files names n').
Qed.

Lemma filter_map_shift (p : Box.t → bool) (k : nat) (bs : list Box.t) :
  (∀ b, p (shift_box k b) = p b) →
  List.filter p (map (shift_box k) bs) = map (shift_box k) (List.filter p bs).
Proof.
  intros Hp. induction bs as [|b bs IH]; [done|]. simpl.
  rewrite Hp. destruct (p b); simpl; by rewrite IH.
Qed.

Lemma sorted_map_shift (k : nat) (bs : list Box.t) :
  Py.sorted box_id_le (map (shift_box k) bs)
  = map (shift_box k) (Py.sorted box_id_le bs).
Proof.
  symmetry.
  exact (sorted_map_keys (shift_box k) box_id_le bs).
Qed.

Lemma last_map {A B : Type} (f : A → B) (l : list A) :
  last (map f l) = f <$> last l.
Proof.
  induction l as [|x [|y l] IH]; [done..|].
  exact IH.
Qed.

Lemma save_box_shift (k : nat) (b : Box.t) (d : Disk) :
  save_box (shift_box k b) d = save_box b d.
Proof. unfold save_box. by rewrite box_to_dict_shift. Qed.

Lemma load_boxes_shift (d : Disk) (k n : nat) :
  load_boxes d (k + n)
  = ((map (shift_box k) (load_boxes d n).1.1.1,
      shift_box k <$> (load_boxes d n).1.1.2),
     (load_boxes d n).1.2, (k + (load_boxes d n).2)%nat).
Proof.
  unfold load_boxes. rewrite read_boxes_shift.
  destruct (read_boxes _ _ n) as [[|b0 boxes] n']; [done|].
  cbn [fst snd]. set (bs := b0 :: boxes).
  change (map (shift_box k) bs) with (shift_box k b0 :: map (shift_box k) boxes)
    at 1.
  cbv beta iota zeta.
  rewrite !filter_map_shift, !sorted_map_shift, last_map by done.
  destruct (last (Py.sorted box_id_le _)) as [b|]; cbn [fst snd fmap option_fmap option_map].
  - done.
  - rewrite map_map. replace (map (λ x, Box.id (shift_box k x)) bs)
      with (map Box.id bs) by by apply map_ext.
    done.
Qed.

Lemma load_rejects_shift (d : Disk) (k n : nat) :
  load_rejects d (k + n)
  = (map (shift_item k) (load_rejects d n).1, (k + (load_rejects d n).2)%nat).
Proof.
  unfold load_rejects. destruct (rejects_file d) as [[data|]|]; [|done..].
  rewrite item_from_dicts_shift.
  by destruct (Item.from_dicts n data) as [[its n']|].
Qed.

(** [load_state], with the destructuring of its results spelled out. *)
Lemma load_state_unfold (s : State) :
  load_state s =
  let r := load_boxes (disk s) (next_addr s) in
  let ix := index_boxes (r.1.1.1 ++ match r.1.1.2 with
                                    | Some b => [b]
                                    | None => []
                                    end) in
  let rj := load_rejects r.1.2 r.2 in
  let ix' := foldl index_reject (ix.1, []) rj.1 in
  {| items := ix'.1; approved_items_ids := ix.2;
     not_approved_items_ids := ix'.2;
     closed_boxes := r.1.1.1; open_box := r.1.1.2;
     disk := r.1.2; next_addr := rj.2 |}.
Proof.
  unfold load_state.
  destruct (load_boxes _ _) as [[[closed open_b] d] n]. cbn [fst snd].
  destruct (index_boxes _) as [its approved]. cbn [fst snd].
  destruct (load_rejects _ _) as [rejects n']. cbn [fst snd].
  by destruct (foldl index_reject _ _).
Qed.

Lemma foldl_index_box_item_shift (k : nat) (its : list Item.t)
    (acc : gmap string Item.t * list string) :
  foldl index_box_item (shift_item k <$> acc.1, acc.2) (map (shift_item k) its)
  = (shift_item k <$> (foldl index_box_item acc its).1,
     (foldl index_box_item acc its).2).
Proof.
  revert acc. induction its as [|it its IH]; intros [m ids]; [done|].
  simpl. rewrite <-IH. unfold index_box_item at 2 5. simpl.
  by rewrite fmap_insert.
Qed.

Lemma foldl_index_boxes_shift (k : nat) (bs : list Box.t)
    (acc : gmap string Item.t * list string) :
  foldl (λ acc b, foldl index_box_item acc (Box.items b))
    (shift_item k <$> acc.1, acc.2) (map (shift_box k) bs)
  = (shift_item k <$>
       (foldl (λ acc b, foldl index_box_item acc (Box.items b)) acc bs).1,
     (foldl (λ acc b, foldl index_box_item acc (Box.items b)) acc bs).2).
Proof.
  revert acc. induction bs as [|b bs IH]; intros acc; [done|].
  simpl. rewrite foldl_index_box_item_shift. apply IH.
Qed.

Lemma index_boxes_shift (k : nat) (bs : list Box.t) :
  index_boxes (map (shift_box k) bs)
  = (shift_item k <$> (index_boxes bs).1, (index_boxes bs).2).
Proof.
  unfold index_boxes. rewrite <-foldl_index_boxes_shift. simpl.
  by rewrite fmap_empty.
Qed.

Lemma foldl_index_reject_shift (k : nat) (its : list Item.t)
    (acc : gmap string Item.t * list string) :
  foldl index_reject (shift_item k <$> acc.1, acc.2) (map (shift_item k) its)
  = (shift_item k <$> (foldl index_reject acc its).1,
     (foldl index_reject acc its).2).
Proof.
  revert acc. induction its as [|it its IH]; intros [m ids]; [done|].
  simpl. rewrite <-IH. unfold index_reject at 2 5. simpl.
  by rewrite fmap_insert.
Qed.

(** What [load_state] builds depends on the disk only, not on where the
    objects are allocated. *)
Lemma load_state_indexes_shift (s1 s2 : State) (k : nat) :
  disk s1 = disk s2 → next_addr s1 = (k + next_addr s2)%nat →
  indexes (load_state s1) = indexes (load_state s2) ∧
  disk (load_state s1) = disk (load_state s2).
Proof.
  intros Hd Hn. rewrite !load_state_unfold. cbv zeta.
  rewrite Hd, Hn, load_boxes_shift. cbn [fst snd].
  set (r := load_boxes (disk s2) (next_addr s2)).
  rewrite load_rejects_shift. cbn [fst snd].
  set (rj := load_rejects r.1.2 r.2).
  assert (map (shift_box k) r.1.1.1 ++
          match shift_box k <$> r.1.1.2 with Some b => [b] | None => [] end
          = map (shift_box k)
              (r.1.1.1 ++ match r.1.1.2 with Some b => [b] | None => [] end))
    as ->.
  { rewrite map_app. by destruct (r.1.1.2). }
  rewrite index_boxes_shift. cbn [fst snd].
  set (ix := index_boxes _).
  pose proof (foldl_index_reject_shift k rj.1 (ix.1, [])) as Hr.
  cbn [fst snd] in Hr. rewrite Hr. clear Hr.
  split; [|done]. unfold indexes. cbn [items approved_items_ids
    not_approved_items_ids closed_boxes open_box fst snd].
  f_equal.
  - rewrite <-map_fmap_compose. apply map_fmap_ext. intros ???.
    apply item_to_dict_shift.
  - rewrite map_map. apply map_ext, box_to_dict_shift.
  - destruct (r.1.1.2); [|done]. simpl. f_equal. apply box_to_dict_shift.
Qed.

Lemma load_state_indexes_disk (s1 s2 : State) :
  disk s1 = disk s2 →
  indexes (load_state s1) = indexes (load_state s2) ∧
  disk (load_state s1) = disk (load_state s2).
Proof.
  intros Hd.
  set (s0 := {| items := items s1; approved_items_ids := [];
                not_approved_items_ids := []; closed_boxes := [];
                open_box := None; disk := disk s1; next_addr := 0 |}).
  destruct (load_state_indexes_shift s1 s0 (next_addr s1)) as [-> ->];
    [done|simpl; lia|].
  destruct (load_state_indexes_shift s2 s0 (next_addr s2)) as [-> ->];
    [done|simpl; lia|].
  done.
Qed.

(** ** Reading the box records *)

Lemma foldl_max_spec (x : Z) (l : list Z) :
  foldl Z.max x l ∈ x :: l ∧ ∀ y, y ∈ x :: l → y ≤ foldl Z.max x l.
Proof.
  revert x. induction l as [|z l IH]; intros x; simpl.
  - split; [set_solver|]. intros y ->%list_elem_of_singleton. lia.
  - destruct (IH (Z.max x z)) as [Hin Hmax]. split.
    + apply elem_of_cons in Hin as [Hin|Hin]; [|set_solver].
      rewrite Hin. destruct (Z.max_spec x z) as [[_ ->]|[_ ->]]; set_solver.
    + intros y Hy. assert (y ≤ Z.max x z ∨ y ∈ l) as [Hle|Hl].
      { apply elem_of_cons in Hy as [->|Hy]; [left; lia|].
        apply elem_of_cons in Hy as [->|Hy]; [left; lia|by right]. }
      * etrans; [exact Hle|]. apply Hmax. set_solver.
      * apply Hmax. set_solver.
Qed.

Lemma py_max_spec (l : list Z) :
  l ≠ [] → Py.max l ∈ l ∧ ∀ y, y ∈ l → y ≤ Py.max l.
Proof. destruct l as [|x l]; [done|]. intros _. apply foldl_max_spec. Qed.

Lemma load_boxes_unfold (d : Disk) (n : nat) :
  load_boxes d n =
  let boxes := parsed_boxes d n in
  let n' := (read_boxes (box_files d) (Py.sorted String.leb (listdir d)) n).2 in
  match boxes with
  | [] => (([], Some (Box.init 1 false [])),
           save_box (Box.init 1 false []) d, n')
  | _ =>
      let closed := Py.sorted box_id_le (List.filter Box.closed boxes) in
      match last (Py.sorted box_id_le
                    (List.filter (λ b, negb (Box.closed b)) boxes)) with
      | Some b => ((closed, Some b), d, n')
      | None =>
          let b := Box.init (Py.max (map Box.id boxes) + 1) false [] in
          ((closed, Some b), save_box b d, n')
      end
  end.
Proof.
  unfold load_boxes, parsed_boxes.
  destruct (read_boxes _ _ _) as [[|b0 boxes] n']; [done|].
  cbv beta iota zeta. cbn [fst snd].
  by destruct (last (Py.sorted box_id_le _)).
Qed.

Lemma read_boxes_cons (files : gmap string (option BoxDict)) (name : string)
    (rest : list string) (n : nat) :
  read_boxes files (name :: rest) n =
  match (if box_name name then files !! name ≫= id else None)
        ≫= Box.from_dict n with
  | Some (b, n') =>
      (b :: (read_boxes files rest n').1, (read_boxes files rest n').2)
  | None => read_boxes files rest n
  end.
Proof.
  cbn [read_boxes]. unfold box_name.
  rewrite <-negb_andb. destruct (_ && _); [|done]. cbn [negb].
  destruct (files !! name) as [[data|]|]; [|done..]. simpl.
  destruct (Box.from_dict n data) as [[b n']|]; [|done].
  by destruct (read_boxes files rest n').
Qed.

Lemma read_boxes_elem (files : gmap string (option BoxDict))
    (names : list string) (n : nat) (b : Box.t) :
  b ∈ (read_boxes files names n).1 →
  ∃ name data n0 n1,
    name ∈ names ∧ box_name name = true ∧
    files !! name = Some (Some data) ∧ Box.from_dict n0 data = Some (b, n1).
Proof.
  revert n. induction names as [|name names IH]; intros n; [by inv 1|].
  rewrite read_boxes_cons.
  destruct (box_name name) eqn:Hname;
    [|intros (?&?&?&?&?&?)%IH; set_solver].
  destruct (files !! name) as [[data|]|] eqn:Hf;
    [|intros (?&?&?&?&?&?)%IH; set_solver..].
  simpl. destruct (Box.from_dict n data) as [[b' n']|] eqn:Hb;
    [|intros (?&?&?&?&?&?)%IH; set_solver].
  simpl. intros [->|Hin]%elem_of_cons.
  - exists name, data, n, n'. set_solver.
  - apply IH in Hin as (?&?&?&?&?&?). set_solver.
Qed.

Lemma read_boxes_complete (files : gmap string (option BoxDict))
    (names : list string) (n : nat) (name : string) (data : BoxDict) :
  name ∈ names → box_name name = true →
  files !! name = Some (Some data) → readable data →
  ∃ b n0 n1, b ∈ (read_boxes files names n).1 ∧
             Box.from_dict n0 data = Some (b, n1).
Proof.
  intros Hin Hname Hf Hr. revert n.
  induction names as [|name' names IH]; intros n; [by inv Hin|].
  rewrite read_boxes_cons.
  apply elem_of_cons in Hin as [<-|Hin].
  - rewrite Hname, Hf. simpl.
    destruct (proj2 (box_from_dict_readable n data) Hr) as [[b n'] Hb].
    rewrite Hb. exists b, n, n'. set_solver.
  - destruct (_ ≫= Box.from_dict n) as [[b' n']|].
    + destruct (IH Hin n') as (b & n0 & n1 & ? & ?).
      exists b, n0, n1. set_solver.
    + by apply IH.
Qed.

Lemma elem_of_sorted_listdir (d : Disk) (name : string) :
  name ∈ Py.sorted String.leb (listdir d) ↔ is_Some (box_files d !! name).
Proof.
  rewrite sorted_perm. unfold listdir.
  rewrite list_elem_of_fmap. split.
  - intros ([k v] & -> & Hkv). apply elem_of_map_to_list in Hkv. by exists v.
  - intros [v Hv]. exists (name, v). split; [done|].
    by apply elem_of_map_to_list.
Qed.

(** The boxes read are the readable records of the box files. *)
Lemma parsed_boxes_records (d : Disk) (n : nat) :
  (∀ b, b ∈ parsed_boxes d n →
     ∃ name data n0 n1,
       box_name name = true ∧ box_files d !! name = Some (Some data) ∧
       Box.from_dict n0 data = Some (b, n1)) ∧
  (∀ name data,
     box_name name = true → box_files d !! name = Some (Some data) →
     readable data →
     ∃ b n0 n1, b ∈ parsed_boxes d n ∧ Box.from_dict n0 data = Some (b, n1)).
Proof.
  split.
  - intros b (name & data & n0 & n1 & _ & ? & ? & ?)%read_boxes_elem.
    by exists name, data, n0, n1.
  - intros name data Hname Hf Hr.
    apply (read_boxes_complete _ _ n name data); try done.
    apply elem_of_sorted_listdir. by rewrite Hf.
Qed.

Lemma StronglySorted_weaken {A : Type} (R S : A → A → Prop) (l : list A) :
  (∀ x y, R x y → S x y) → StronglySorted R l → StronglySorted S l.
Proof.
  intros HRS. induction 1 as [|x l _ IH Hx]; constructor; [done|].
  eapply Forall_impl; [exact Hx|]. auto.
Qed.

(** The three cases of [load_boxes], and its closed boxes. *)
Lemma load_boxes_spec (d : Disk) (n : nat) :
  let boxes := parsed_boxes d n in
  let closed := (load_boxes d n).1.1.1 in
  let open_b := (load_boxes d n).1.1.2 in
  let d' := (load_boxes d n).1.2 in
  ((∀ b, b ∈ boxes →
      ∃ name data n0 n1,
        box_name name = true ∧ box_files d !! name = Some (Some data) ∧
        Box.from_dict n0 data = Some (b, n1)) ∧
   (∀ name data,
      box_name name = true → box_files d !! name = Some (Some data) →
      readable data →
      ∃ b n0 n1, b ∈ boxes ∧ Box.from_dict n0 data = Some (b, n1))) ∧
  (boxes = [] →
     closed = [] ∧ open_b = Some (Box.init 1 false []) ∧
     d' = save_box (Box.init 1 false []) d ∧
     box_files d' !! _box_filename 1
     = Some (Some (Box.to_dict (Box.init 1 false [])))) ∧
  (Exists (λ b, Box.closed b = false) boxes →
     ∃ b, open_b = Some b ∧ b ∈ boxes ∧ Box.closed b = false ∧
          (∀ b', b' ∈ boxes → Box.closed b' = false →
                 Box.id b' ≤ Box.id b) ∧
          d' = d) ∧
  (boxes ≠ [] → Forall (λ b, Box.closed b = true) boxes →
     ∃ m, m ∈ map Box.id boxes ∧ (∀ b, b ∈ boxes → Box.id b ≤ m) ∧
          open_b = Some (Box.init (m + 1) false []) ∧
          d' = save_box (Box.init (m + 1) false []) d ∧
          box_files d' !! _box_filename (m + 1)
          = Some (Some (Box.to_dict (Box.init (m + 1) false [])))) ∧
  (closed ≡ₚ List.filter Box.closed boxes ∧
   StronglySorted (λ b1 b2, Box.id b1 ≤ Box.id b2) closed).
Proof.
  cbv zeta. rewrite load_boxes_unfold. cbv zeta.
  split; [apply parsed_boxes_records|].
  destruct (parsed_boxes d n) as [|b0 boxes] eqn:Hboxes.
  { cbn [fst snd]. split_and!; try done.
    - intros _. split_and!; try done.
      exact (save_box_lookup (Box.init 1 false []) d).
    - by inv 1.
    - constructor. }
  set (bs := b0 :: boxes).
  assert (Py.sorted box_id_le (List.filter Box.closed bs)
          ≡ₚ List.filter Box.closed bs ∧
          StronglySorted (λ b1 b2, Box.id b1 ≤ Box.id b2)
            (Py.sorted box_id_le (List.filter Box.closed bs)))
    as [Hperm Hsorted].
  { split; [apply sorted_perm|].
    eapply StronglySorted_weaken;
      [|apply sorted_sorted; [apply box_id_le_total|apply box_id_le_trans]].
    intros x y. unfold box_id_le. lia. }
  destruct (last (Py.sorted box_id_le
                    (List.filter (λ b, negb (Box.closed b)) bs)))
    as [b|] eqn:Hlast; cbn [fst snd].
  - apply sorted_last_max in Hlast as [Hb Hmax];
      [|apply box_id_le_total|apply box_id_le_trans].
    apply list_elem_of_In, filter_In in Hb as [Hb Hbc].
    apply negb_true_iff in Hbc.
    split_and!; try done.
    + intros _. exists b. split_and!; try done.
      * by apply list_elem_of_In.
      * intros b' Hb' Hc'.
        assert (box_id_le b' b = true) as Hle; [|unfold box_id_le in Hle; lia].
        apply Hmax, list_elem_of_In, filter_In. split.
        -- by apply list_elem_of_In.
        -- by rewrite Hc'.
    + intros _ Hall. rewrite Forall_forall in Hall.
      apply list_elem_of_In in Hb. rewrite (Hall b Hb) in Hbc. done.
  - apply last_None, sorted_nil_inv in Hlast.
    split_and!; try done.
    + intros Hex. apply Exists_exists in Hex as (b & Hb & Hbc).
      assert (b ∈ List.filter (λ b, negb (Box.closed b)) bs) as Hin.
      { apply list_elem_of_In, filter_In. split; [by apply list_elem_of_In|].
        by rewrite Hbc. }
      rewrite Hlast in Hin. by inv Hin.
    + intros _ _. exists (Py.max (map Box.id bs)).
      destruct (py_max_spec (map Box.id bs)) as [Hin Hmax]; [done|].
      split_and!; try done.
      * intros b Hb. apply Hmax. by apply list_elem_of_fmap_2.
      * exact (save_box_lookup (Box.init (Py.max (map Box.id bs) + 1) false [])
                 d).
Qed.

(** C3. How [load_boxes] chooses the open box among the readable box
    records.  With no readable record, box 1, open and empty, is created,
    written to disk, and is the open box, and there is no closed box.
    With at least one record that is not closed, the open box is such a
    record and none of them has a larger identifier; nothing is written.
    With records that are all closed, a new box, open and empty, numbered
    one more than the largest identifier on disk, is created, written and
    is the open box.  In every case the closed boxes are the records whose
    closed flag is set, by ascending identifier. *)
Theorem load_boxes_selects_open_box (d : Disk) (n : nat) :
  let boxes := parsed_boxes d n in
  let closed := (load_boxes d n).1.1.1 in
  let open_b := (load_boxes d n).1.1.2 in
  let d' := (load_boxes d n).1.2 in
  ((∀ b, b ∈ boxes →
      ∃ name data n0 n1,
        box_name name = true ∧ box_files d !! name = Some (Some data) ∧
        Box.from_dict n0 data = Some (b, n1)) ∧
   (∀ name data,
      box_name name = true → box_files d !! name = Some (Some data) →
      readable data →
      ∃ b n0 n1, b ∈ boxes ∧ Box.from_dict n0 data = Some (b, n1))) ∧
  (boxes = [] →
     closed = [] ∧ open_b = Some (Box.init 1 false []) ∧
     d' = save_box (Box.init 1 false []) d ∧
     box_files d' !! _box_filename 1
     = Some (Some (Box.to_dict (Box.init 1 false [])))) ∧
  (Exists (λ b, Box.closed b = false) boxes →
     ∃ b, open_b = Some b ∧ b ∈ boxes ∧ Box.closed b = false ∧
          (∀ b', b' ∈ boxes → Box.closed b' = false →
                 Box.id b' ≤ Box.id b) ∧
          d' = d) ∧
  (boxes ≠ [] → Forall (λ b, Box.closed b = true) boxes →
     ∃ m, m ∈ map Box.id boxes ∧ (∀ b, b ∈ boxes → Box.id b ≤ m) ∧
          open_b = Some (Box.init (m + 1) false []) ∧
          d' = save_box (Box.init (m + 1) false []) d ∧
          box_files d' !! _box_filename (m + 1)
          = Some (Some (Box.to_dict (Box.init (m + 1) false [])))) ∧
  (closed ≡ₚ List.filter Box.closed boxes ∧
   StronglySorted (λ b1 b2, Box.id b1 ≤ Box.id b2) closed).
Proof. exact (load_boxes_spec d n). Qed.

(** ** Building the indexes *)

Lemma index_boxes_flat (bs : list Box.t) :
  index_boxes bs = foldl index_box_item (∅, []) (items_of bs).
Proof.
  unfold index_boxes, items_of.
  generalize (∅ : gmap string Item.t, @nil string) as acc.
  induction bs as [|b bs IH]; intros acc; [done|].
  simpl. by rewrite foldl_app, IH.
Qed.

Lemma foldl_index_box_item_spec (its : list Item.t)
    (acc : gmap string Item.t * list string) :
  (foldl index_box_item acc its).2
  = acc.2 ++ map Item.id (List.filter Item.approved its) ∧
  ∀ i, (foldl index_box_item acc its).1 !! i
       = match last (List.filter (λ it, String.eqb (Item.id it) i) its) with
         | Some it => Some it
         | None => acc.1 !! i
         end.
Proof.
  revert acc. induction its as [|it its IH]; intros acc.
  - split; [by rewrite app_nil_r|done].
  - destruct (IH (index_box_item acc it)) as [IH2 IH1].
    cbn [foldl]. split.
    + rewrite IH2. unfold index_box_item. cbn [snd List.filter].
      destruct (Item.approved it); [|done].
      by rewrite <-app_assoc.
    + intros i. rewrite IH1. cbn [List.filter].
      destruct (String.eqb_spec (Item.id it) i) as [Heq|Hne].
      * subst i.
        destruct (List.filter (λ it0, String.eqb (Item.id it0) (Item.id it))
                    its) as [|it' l'] eqn:Hf.
        -- simpl. apply lookup_insert_eq.
        -- change (last (it :: it' :: l')) with (last (it' :: l')).
           by destruct (last (it' :: l')) eqn:Hl; [|apply last_None in Hl].
      * destruct (last _); [done|]. unfold index_box_item. cbn [fst].
        by apply lookup_insert_ne.
Qed.

Lemma foldl_index_reject_spec (its : list Item.t)
    (acc : gmap string Item.t * list string) :
  (foldl index_reject acc its).2 = acc.2 ++ map Item.id its ∧
  ∀ i, (foldl index_reject acc its).1 !! i
       = match last (List.filter (λ it, String.eqb (Item.id it) i) its) with
         | Some it => Some it
         | None => acc.1 !! i
         end.
Proof.
  revert acc. induction its as [|it its IH]; intros acc.
  - split; [by rewrite app_nil_r|done].
  - destruct (IH (index_reject acc it)) as [IH2 IH1].
    cbn [foldl]. split.
    + rewrite IH2. unfold index_reject. cbn [snd map].
      by rewrite <-app_assoc.
    + intros i. rewrite IH1. cbn [List.filter].
      destruct (String.eqb_spec (Item.id it) i) as [Heq|Hne].
      * subst i.
        destruct (List.filter (λ it0, String.eqb (Item.id it0) (Item.id it))
                    its) as [|it' l'] eqn:Hf.
        -- simpl. apply lookup_insert_eq.
        -- change (last (it :: it' :: l')) with (last (it' :: l')).
           by destruct (last (it' :: l')) eqn:Hl; [|apply last_None in Hl].
      * destruct (last _); [done|]. unfold index_reject. cbn [fst].
        by apply lookup_insert_ne.
Qed.

Lemma last_filter_id_Some (its : list Item.t) (i : string) (it : Item.t) :
  last (List.filter (λ it, String.eqb (Item.id it) i) its) = Some it →
  it ∈ its ∧ Item.id it = i.
Proof.
  intros [l Hl]%last_Some.
  assert (it ∈ List.filter (λ it, String.eqb (Item.id it) i) its) as Hin.
  { rewrite Hl. set_solver. }
  apply list_elem_of_In, filter_In in Hin as [Hin Hid].
  split; [by apply list_elem_of_In|by apply String.eqb_eq].
Qed.

Lemma last_filter_id_None (its : list Item.t) (i : string) :
  last (List.filter (λ it, String.eqb (Item.id it) i) its) = None →
  i ∉ map Item.id its.
Proof.
  intros Hl%last_None Hin.
  apply list_elem_of_fmap in Hin as (it & -> & Hit).
  assert (it ∈ List.filter (λ it0, String.eqb (Item.id it0) (Item.id it)) its)
    as Hin.
  { apply list_elem_of_In, filter_In. split; [by apply list_elem_of_In|].
    apply String.eqb_refl. }
  rewrite Hl in Hin. by inv Hin.
Qed.

(** Where the entries of the indexes come from. *)
Lemma load_state_sources (s0 : State) :
  let s := load_state s0 in
  let r := load_boxes (disk s0) (next_addr s0) in
  let bs := closed_boxes s ++ match open_box s with
                              | Some b => [b]
                              | None => []
                              end in
  let rejects := (load_rejects r.1.2 r.2).1 in
  approved_items_ids s = map Item.id (List.filter Item.approved (items_of bs)) ∧
  not_approved_items_ids s = map Item.id rejects ∧
  (∀ i, is_Some (items s !! i) ↔
        i ∈ map Item.id (items_of bs) ∨ i ∈ map Item.id rejects) ∧
  (∀ i it, items s !! i = Some it →
           Item.id it = i ∧ (it ∈ items_of bs ∨ it ∈ rejects)).
Proof.
  cbv zeta. rewrite load_state_unfold. cbv zeta.
  cbn [items approved_items_ids not_approved_items_ids closed_boxes open_box].
  set (r := load_boxes (disk s0) (next_addr s0)).
  set (bs := r.1.1.1 ++ _).
  set (rj := (load_rejects r.1.2 r.2).1).
  rewrite index_boxes_flat.
  destruct (foldl_index_box_item_spec (items_of bs) (∅, [])) as [Ha Hm].
  destruct (foldl_index_reject_spec rj
              ((foldl index_box_item (∅, []) (items_of bs)).1, []))
    as [Hr Hm'].
  cbn [fst snd] in *. split_and!; [done|done|..].
  - intros i. rewrite Hm', Hm.
    destruct (last (List.filter _ rj)) as [it|] eqn:Hl1.
    { apply last_filter_id_Some in Hl1 as [Hin <-]. split; [|by eexists].
      intros _. right. by apply list_elem_of_fmap_2. }
    apply last_filter_id_None in Hl1.
    destruct (last (List.filter _ (items_of bs))) as [it|] eqn:Hl2.
    { apply last_filter_id_Some in Hl2 as [Hin <-]. split; [|by eexists].
      intros _. left. by apply list_elem_of_fmap_2. }
    apply last_filter_id_None in Hl2. rewrite lookup_empty.
    split; [by intros [? ?]|]. by intros [?|?].
  - intros i it. rewrite Hm', Hm.
    destruct (last (List.filter _ rj)) as [it'|] eqn:Hl1.
    { apply last_filter_id_Some in Hl1 as [Hin <-]. intros [= <-]. auto. }
    destruct (last (List.filter _ (items_of bs))) as [it'|] eqn:Hl2.
    { apply last_filter_id_Some in Hl2 as [Hin <-]. intros [= <-]. auto. }
    by rewrite lookup_empty.
Qed.

(** ** Several records that are not closed *)

(** C4 (as the code has it).  When two or more readable records are not
    closed, the open box is the one of them with the largest identifier,
    and the others are dropped: they are not the open box and not among
    the closed boxes (which hold only records whose closed flag is set),
    so their items reach neither the item index nor the approved order,
    which are built from the closed boxes, the open box and the rejects
    file only; the disk is left as it was. *)
Theorem demoted_open_records_are_dropped (s0 : State) :
  let boxes := parsed_boxes (disk s0) (next_addr s0) in
  let s := load_state s0 in
  (2 ≤ length (List.filter (λ b, negb (Box.closed b)) boxes))%nat →
  ∃ ob,
    open_box s = Some ob ∧ ob ∈ boxes ∧ Box.closed ob = false ∧
    (∀ b, b ∈ boxes → Box.closed b = false → Box.id b ≤ Box.id ob) ∧
    closed_boxes s ≡ₚ List.filter Box.closed boxes ∧
    (∀ b, b ∈ boxes → Box.closed b = false → b ∉ closed_boxes s) ∧
    approved_items_ids s
    = map Item.id
        (List.filter Item.approved (items_of (closed_boxes s ++ [ob]))) ∧
    (∀ i, is_Some (items s !! i) ↔
          i ∈ map Item.id (items_of (closed_boxes s ++ [ob])) ∨
          i ∈ not_approved_items_ids s) ∧
    disk s = disk s0.
Proof.
  cbv zeta. intros Htwo.
  destruct (load_boxes_spec (disk s0) (next_addr s0))
    as (_ & _ & Hopen & _ & Hperm & _).
  destruct Hopen as (ob & Hob & Hin & Hc & Hmax & Hd).
  { destruct (List.filter _ _) as [|b l] eqn:Hf; [simpl in Htwo; lia|].
    assert (In b (List.filter (λ b, negb (Box.closed b))
                    (parsed_boxes (disk s0) (next_addr s0)))) as Hb
      by (rewrite Hf; by left).
    apply filter_In in Hb as [Hb Hbc]. apply Exists_exists. exists b.
    split; [by apply list_elem_of_In|]. by apply negb_true_iff. }
  destruct (load_state_fields s0) as (Hcl & Hop & _ & Hdisk).
  destruct (load_state_sources s0) as (Ha & Hr & Hm & _).
  rewrite Hop, Hob in Ha, Hm. rewrite <-Hr in Hm.
  exists ob. rewrite Hop, Hcl, Hdisk. split_and!; try done.
  - intros b _ Hbc Hb. rewrite Hperm in Hb.
    apply list_elem_of_In, filter_In in Hb as [_ Hb]. congruence.
  - by rewrite <-Hcl.
  - by rewrite <-Hcl.
Qed.

Lemma demoted_open_records_are_dropped_witness :
  let s := load_state (initial_state two_open_disk) in
  ∃ ob,
    open_box s = Some ob ∧ Box.id ob = 2 ∧
    closed_boxes s ≡ₚ [] ∧
    approved_items_ids s
    = map Item.id
        (List.filter Item.approved (items_of (closed_boxes s ++ [ob]))) ∧
    disk s = two_open_disk.
Proof.
  cbv zeta.
  destruct (demoted_open_records_are_dropped (initial_state two_open_disk))
    as (ob & Hob & _ & _ & _ & Hcl & _ & Ha & _ & Hd);
    [vm_compute; lia|].
  exists ob. split; [exact Hob|]. split.
  { assert (Some ob = Some (Box.mk 2 false [])) as [= ->];
      [rewrite <-Hob; by vm_compute|reflexivity]. }
  split; [exact Hcl|]. split; [exact Ha|exact Hd].
Defined.

(** C4 as stated fails: box 1 and box 2 are both recorded as not closed;
    box 2 becomes the open box, box 1 is not among the closed boxes, and
    its approved item P1 is in neither the item index nor the approved
    order. *)
Lemma demoted_box_items_counterexample :
  let s := load_state (initial_state two_open_disk) in
  box_files two_open_disk !! "box_0001.json"%string
  = Some (Some (box_dict 1 false [good_item_dict "P1"])) ∧
  box_files two_open_disk !! "box_0002.json"%string
  = Some (Some (box_dict 2 false [])) ∧
  open_box s = Some (Box.init 2 false []) ∧
  closed_boxes s = [] ∧
  items s !! "P1"%string = None ∧
  approved_items_ids s = [] ∧
  disk s = two_open_disk.
Proof. cbv zeta. split_and!; by vm_compute. Qed.

(** ** Reading again after a box was saved *)

Lemma sorted_names_perm (l1 l2 : list string) :
  l1 ≡ₚ l2 → Py.sorted String.leb l1 = Py.sorted String.leb l2.
Proof.
  intros Hp.
  apply (StronglySorted_unique_strong (λ a b, String.leb a b = true)).
  - intros x y _ _. apply String.leb_antisym.
  - apply sorted_sorted; [apply String.leb_total|apply string_leb_trans].
  - apply sorted_sorted; [apply String.leb_total|apply string_leb_trans].
  - by rewrite !sorted_perm.
Qed.

Lemma listdir_NoDup (d : Disk) : NoDup (listdir d).
Proof. apply NoDup_fst_map_to_list. Qed.

Lemma listdir_save_box (b : Box.t) (d : Disk) :
  let f := _box_filename (Box.id b) in
  ∃ K, (f ∉ K) ∧ (listdir (save_box b d) ≡ₚ f :: K) ∧
       (listdir d ≡ₚ K ∧ box_files d !! f = None ∨
        listdir d ≡ₚ f :: K ∧ is_Some (box_files d !! f)).
Proof.
  cbv zeta. set (f := _box_filename (Box.id b)).
  exists ((map_to_list (delete f (box_files d))).*1).
  assert (f ∉ (map_to_list (delete f (box_files d))).*1) as Hf.
  { intros ([k v] & -> & Hkv%elem_of_map_to_list)%list_elem_of_fmap.
    simpl in Hkv. by rewrite lookup_delete_eq in Hkv. }
  split; [done|]. split.
  - unfold listdir, save_box. cbn [box_files]. fold f.
    rewrite <-insert_delete_eq.
    rewrite map_to_list_insert by apply lookup_delete_eq. done.
  - destruct (box_files d !! f) as [w|] eqn:Hw.
    + right. split; [|by eexists]. unfold listdir.
      rewrite <-(insert_delete_id (box_files d) f w) at 1 by done.
      rewrite map_to_list_insert by apply lookup_delete_eq. done.
    + left. split; [|done]. unfold listdir. by rewrite delete_id.
Qed.

(** The sorted names after [save_box]: the name of the saved box is there
    once, and the other names are where they were. *)
Lemma sorted_listdir_save_box (b : Box.t) (d : Disk) :
  let f := _box_filename (Box.id b) in
  ∃ l1 l2,
    Py.sorted String.leb (listdir (save_box b d)) = l1 ++ f :: l2 ∧
    (f ∉ l1) ∧ (f ∉ l2) ∧
    (Py.sorted String.leb (listdir d) = l1 ++ l2 ∧ box_files d !! f = None ∨
     Py.sorted String.leb (listdir d) = l1 ++ f :: l2 ∧
     is_Some (box_files d !! f)).
Proof.
  cbv zeta. destruct (listdir_save_box b d) as (K & HfK & Hp1 & Hp).
  set (f := _box_filename (Box.id b)) in *.
  destruct (insort_split String.leb f (Py.sorted String.leb K))
    as (l1 & l2 & HK & Hins).
  assert ((f ∉ l1) ∧ (f ∉ l2)) as [Hl1 Hl2].
  { assert (f ∉ l1 ++ l2) as Hn; [|set_solver].
    rewrite <-HK, sorted_perm. done. }
  exists l1, l2. split_and!; try done.
  - rewrite (sorted_names_perm _ _ Hp1). exact Hins.
  - destruct Hp as [[Hp Hnone]|[Hp Hsome]].
    + left. split; [|done]. by rewrite (sorted_names_perm _ _ Hp).
    + right. split; [|done]. rewrite (sorted_names_perm _ _ Hp). exact Hins.
Qed.

Lemma read_boxes_app (files : gmap string (option BoxDict))
    (a b : list string) (n : nat) :
  read_boxes files (a ++ b) n
  = ((read_boxes files a n).1
       ++ (read_boxes files b (read_boxes files a n).2).1,
     (read_boxes files b (read_boxes files a n).2).2).
Proof.
  revert n. induction a as [|name a IH]; intros n.
  - simpl. by destruct (read_boxes files b n).
  - rewrite <-app_comm_cons, !read_boxes_cons.
    destruct (_ ≫= Box.from_dict n) as [[b0 n']|]; [|apply IH].
    rewrite IH. done.
Qed.

Lemma read_boxes_ext (files files' : gmap string (option BoxDict))
    (names : list string) (n : nat) :
  (∀ name, name ∈ names → files !! name = files' !! name) →
  read_boxes files names n = read_boxes files' names n.
Proof.
  revert n. induction names as [|name names IH]; intros n Hext; [done|].
  rewrite !read_boxes_cons, (Hext name) by set_solver.
  destruct (_ ≫= Box.from_dict n) as [[b0 n']|];
    rewrite IH by set_solver; done.
Qed.

Lemma box_from_dict_empty (n : nat) (k : Z) (c : bool) :
  Box.from_dict n (Box.to_dict (Box.init k c [])) = Some (Box.init k c [], n).
Proof. reflexivity. Qed.

(** Reading the directory after an empty box was saved in a file that held
    no readable record: the same boxes, and the new one among them. *)
Lemma parsed_boxes_save_box (d : Disk) (n : nat) (k : Z) (c : bool) :
  let nb := Box.init k c [] in
  (∀ data, box_files d !! _box_filename k = Some (Some data) →
           ¬ readable data) →
  ∃ l1 l2,
    parsed_boxes d n = l1 ++ l2 ∧
    parsed_boxes (save_box nb d) n = l1 ++ nb :: l2 ∧
    (read_boxes (box_files (save_box nb d))
       (Py.sorted String.leb (listdir (save_box nb d))) n).2
    = (read_boxes (box_files d) (Py.sorted String.leb (listdir d)) n).2.
Proof.
  cbv zeta. intros Hfree. set (nb := Box.init k c []).
  destruct (sorted_listdir_save_box nb d) as (a & b & Hn1 & Ha & Hb & Hn).
  change (Box.id nb) with k in *. set (f := _box_filename k) in *.
  set (files := box_files d).
  set (files1 := box_files (save_box nb d)).
  assert (∀ l m, f ∉ l → read_boxes files1 l m = read_boxes files l m) as Hsame.
  { intros l m Hl. apply read_boxes_ext. intros name Hname.
    apply (save_box_lookup_ne nb). fold f. set_solver. }
  assert (∀ m, read_boxes files1 [f] m = ([nb], m)) as Hnew.
  { intros m. rewrite read_boxes_cons.
    destruct (box_filename_matches k) as [H1 H2].
    unfold box_name. fold f in H1, H2. rewrite H1, H2. cbn [andb].
    change (files1 !! f)
      with (box_files (save_box nb d) !! _box_filename (Box.id nb)).
    rewrite (save_box_lookup nb d). cbn [mbind option_bind id].
    unfold nb. by rewrite box_from_dict_empty. }
  assert (∀ m, read_boxes files [f] m = ([], m)) as Hold.
  { intros m. rewrite read_boxes_cons.
    destruct (box_name f); [|done].
    destruct (files !! f) as [[data|]|] eqn:Hf; [|done..].
    cbn [mbind option_bind id].
    destruct (Box.from_dict m data) as [[b0 m']|] eqn:Hb0; [|done].
    destruct (Hfree data Hf). apply (box_from_dict_readable m). by eexists. }
  exists (read_boxes files a n).1,
         (read_boxes files b (read_boxes files a n).2).1.
  unfold parsed_boxes. fold files files1. rewrite Hn1.
  rewrite (read_boxes_app files1 a (f :: b)).
  change (f :: b) with ([f] ++ b).
  rewrite (read_boxes_app files1 [f] b), Hnew, !Hsame by done.
  cbn [fst snd].
  destruct Hn as [[-> _]|[-> _]].
  - rewrite read_boxes_app. done.
  - rewrite (read_boxes_app files a (f :: b)).
    change (f :: b) with ([f] ++ b).
    rewrite (read_boxes_app files [f] b), Hold. done.
Qed.

(** ** Reconstruction twice *)

(** Once [load_boxes] has run, running it again on the disk it left, with
    objects allocated from the same place, gives the same boxes and writes
    nothing more. *)
Lemma load_boxes_again (d : Disk) (n : nat) :
  well_keyed d → load_boxes (load_boxes d n).1.2 n = load_boxes d n.
Proof.
  intros Hwk. rewrite (load_boxes_unfold d n). cbv zeta.
  destruct (parsed_boxes_records d n) as [Hrec1 Hrec2].
  set (n' := (read_boxes _ _ n).2).
  destruct (parsed_boxes d n) as [|b0 boxes] eqn:Hboxes.
  - cbn [fst snd].
    destruct (parsed_boxes_save_box d n 1 false) as (l1 & l2 & Hl & Hl' & Hn).
    { intros data Hdata Hr.
      destruct (Hrec2 (_box_filename 1) data) as (b & _ & _ & Hb & _);
        [|done|done|by inv Hb].
      unfold box_name. by destruct (box_filename_matches 1) as [-> ->]. }
    rewrite Hboxes in Hl. symmetry in Hl. apply app_eq_nil in Hl as [-> ->].
    rewrite load_boxes_unfold. cbv zeta. rewrite Hl', Hn. done.
  - set (bs := b0 :: boxes) in *.
    destruct (last (Py.sorted box_id_le
                      (List.filter (λ b, negb (Box.closed b)) bs)))
      as [b|] eqn:Hlast; cbn [fst snd].
    + rewrite load_boxes_unfold. cbv zeta. rewrite Hboxes. fold bs n'.
      cbv beta iota. by rewrite Hlast.
    + apply last_None, sorted_nil_inv in Hlast.
      set (m := Py.max (map Box.id bs)).
      destruct (py_max_spec (map Box.id bs)) as [_ Hmax]; [done|].
      destruct (parsed_boxes_save_box d n (m + 1) false)
        as (l1 & l2 & Hl & Hl' & Hn).
      { intros data Hdata Hr.
        destruct (Hrec2 (_box_filename (m + 1)) data) as (b & n0 & n1 & Hb & Hfd);
          [|done|done|].
        { unfold box_name.
          by destruct (box_filename_matches (m + 1)) as [-> ->]. }
        apply box_from_dict_id in Hfd.
        rewrite (Hwk _ _ Hdata Hr) in Hfd. injection Hfd as Hid.
        assert (Box.id b ≤ m); [|lia].
        apply Hmax. by apply list_elem_of_fmap_2. }
      rewrite Hboxes in Hl.
      rewrite Hl, List.filter_app in Hlast. apply app_eq_nil in Hlast as [Ho1 Ho2].
      rewrite load_boxes_unfold. cbv zeta. rewrite Hl', Hn. fold n'.
      assert (List.filter (λ b, negb (Box.closed b))
                (l1 ++ Box.init (m + 1) false [] :: l2)
              = [Box.init (m + 1) false []]) as Hopen.
      { rewrite List.filter_app. cbn [List.filter Box.closed Box.init negb].
        by rewrite Ho1, Ho2. }
      assert (List.filter Box.closed (l1 ++ Box.init (m + 1) false [] :: l2)
              = List.filter Box.closed bs) as Hclosed.
      { rewrite Hl, !List.filter_app. done. }
      rewrite Hopen, Hclosed. cbn [Py.sorted foldr Py.insort last].
      by destruct l1.
Qed.

Lemma load_state_again (s0 : State) :
  well_keyed (disk s0) →
  indexes (load_state (load_state s0)) = indexes (load_state s0) ∧
  disk (load_state (load_state s0)) = disk (load_state s0).
Proof.
  intros Hwk.
  set (s1 := {| items := items s0;
                approved_items_ids := approved_items_ids s0;
                not_approved_items_ids := not_approved_items_ids s0;
                closed_boxes := closed_boxes s0; open_box := open_box s0;
                disk := disk (load_state s0); next_addr := next_addr s0 |}).
  destruct (load_state_indexes_disk (load_state s0) s1) as [-> ->]; [done|].
  assert (load_state s1 = load_state s0) as ->; [|done].
  rewrite (load_state_unfold s1), (load_state_unfold s0).
  cbn [disk next_addr s1].
  destruct (load_state_fields s0) as (_ & _ & _ & ->).
  by rewrite load_boxes_again.
Qed.

(** C8 (as the code has it).  When every readable record in the file of a
    box is the record of that box, reconstruction is idempotent: running
    [load_state] on the disk that a first run left gives the same item
    map, the same approved and rejected orders, the same closed boxes and
    the same open box, compared by content, and leaves the disk as the
    first run left it. *)
Theorem load_state_idempotent (s0 : State) :
  well_keyed (disk s0) →
  indexes (load_state (load_state s0)) = indexes (load_state s0) ∧
  disk (load_state (load_state s0)) = disk (load_state s0).
Proof. exact (load_state_again s0). Qed.

(** C8 as stated fails: the record of the closed box 1 (holding P1) sits
    in the file of box 2.  The first run keeps box 1 among the closed
    boxes and writes the new open box 2 over that file; the second run
    finds no closed box and no item. *)
Lemma load_state_twice_counterexample :
  let s1 := load_state (initial_state misfiled_disk) in
  let s2 := load_state s1 in
  map Box.id (closed_boxes s1) = [1] ∧ approved_items_ids s1 = ["P1"%string] ∧
  closed_boxes s2 = [] ∧ approved_items_ids s2 = [] ∧
  indexes s2 ≠ indexes s1.
Proof.
  cbv zeta. split_and!; [by vm_compute..|].
  intros H. apply (f_equal ix_approved) in H. by vm_compute in H.
Qed.

(** ** Objects in boxes *)

Lemma same_sym (x y : Item.t) : Item.same x y = Item.same y x.
Proof. unfold Item.same. apply Nat.eqb_sym. Qed.

Lemma same_true (x y : Item.t) :
  Item.same x y = true ↔ Item.addr x = Item.addr y.
Proof. unfold Item.same. apply Nat.eqb_eq. Qed.

Lemma same_false (x y : Item.t) :
  Item.same x y = false ↔ Item.addr x ≠ Item.addr y.
Proof. unfold Item.same. apply Nat.eqb_neq. Qed.

Lemma is_in_app (x : Item.t) (l1 l2 : list Item.t) :
  Item.is_in x (l1 ++ l2) = Item.is_in x l1 || Item.is_in x l2.
Proof. unfold Item.is_in. apply existsb_app. Qed.

Lemma is_in_false (x : Item.t) (l : list Item.t) :
  Forall (λ it, Item.addr it ≠ Item.addr x) l → Item.is_in x l = false.
Proof.
  induction 1 as [|y l Hy _ IH]; [done|]. simpl. rewrite IH.
  apply orb_false_intro; [|done]. apply same_false. congruence.
Qed.


Lemma is_in_remove_subset (x y : Item.t) (l : list Item.t) :
  Item.is_in x (Item.remove y l) = true → Item.is_in x l = true.
Proof.
  induction l as [|z l IH]; [done|]. simpl.
  destruct (Item.same y z).
  - intros ->. apply orb_true_r.
  - simpl. intros [->|H]%orb_true_iff; [done|].
    rewrite IH by done. apply orb_true_r.
Qed.



Lemma count_holds_le (x : Item.t) (bs bs' : list Box.t) :
  Forall2 (λ b b', holds x b = true → holds x b' = true) bs bs' →
  (length (List.filter (holds x) bs) ≤ length (List.filter (holds x) bs'))%nat.
Proof.
  induction 1 as [|b b' bs bs' Hb _ IH]; [done|]. simpl.
  destruct (holds x b).
  - rewrite Hb by done. simpl. lia.
  - destruct (holds x b'); simpl; lia.
Qed.


Lemma remove_from_closed_holds_le (x item : Item.t) (bs : list Box.t)
    (d : Disk) :
  Forall2 (λ b b', holds x b = true → holds x b' = true)
    (remove_from_closed item bs d).1 bs.
Proof.
  induction bs as [|b bs IH]; [constructor|]. simpl.
  destruct (Item.is_in item (Box.items b)).
  - simpl. constructor.
    + unfold holds. simpl. apply is_in_remove_subset.
    + apply Forall2_same_length_lookup_2; [done|]. naive_solver.
  - destruct (remove_from_closed item bs d). simpl in *. by constructor.
Qed.


(** *** Lists of identifiers *)





Lemma lookup_all_Some (m : gmap string Item.t) (ids : list string) :
  (∀ i, i ∈ ids → is_Some (m !! i)) → is_Some (lookup_all m ids).
Proof.
  induction ids as [|i ids IH]; intros H; [by eexists|]. simpl.
  destruct (H i) as [it ->]; [set_solver|]. simpl.
  destruct IH as [its ->]; [set_solver|]. by eexists.
Qed.

(** ** The operations keep the invariant *)

Lemma evaluate_item_addr (item : Item.t) :
  Item.addr (evaluate_item item) = Item.addr item.
Proof.
  unfold evaluate_item.
  by destruct (weight_in_range _), (color_allowed _), (length_in_range _).
Qed.

Lemma box_count_fresh (x : Item.t) (s : State) :
  Forall (λ b, Forall (λ it, (Item.addr it < Item.addr x)%nat) (Box.items b))
    (all_boxes s) →
  box_count x s = 0%nat.
Proof.
  unfold box_count. induction 1 as [|b bs Hb _ IH]; [done|]. simpl.
  unfold holds at 1. rewrite is_in_false; [done|].
  eapply Forall_impl; [exact Hb|]. simpl. lia.
Qed.

Lemma boxes_addr_weaken (n m : nat) (bs : list Box.t) :
  (n ≤ m)%nat →
  Forall (λ b, Forall (λ it, (Item.addr it < n)%nat) (Box.items b)) bs →
  Forall (λ b, Forall (λ it, (Item.addr it < m)%nat) (Box.items b)) bs.
Proof.
  intros Hnm H. eapply Forall_impl; [exact H|]. intros b Hb.
  eapply Forall_impl; [exact Hb|]. simpl. lia.
Qed.

(** What [store_item] does to the boxes, seen from any object. *)
Lemma store_item_effect (item : Item.t) (s : State) :
  is_Some (open_box s) →
  ∃ s', store_item item s = Ok s' ∧
    items s' = items s ∧
    approved_items_ids s' = approved_items_ids s ∧
    not_approved_items_ids s' = not_approved_items_ids s ∧
    next_addr s' = next_addr s ∧
    is_Some (open_box s') ∧
    (∀ x, Item.same x item = false → box_count x s' = box_count x s) ∧
    (box_count item s = 0%nat → box_count item s' = 1%nat) ∧
    (∀ n, (Item.addr item < n)%nat →
          Forall (λ b, Forall (λ it, (Item.addr it < n)%nat) (Box.items b))
            (all_boxes s) →
          Forall (λ b, Forall (λ it, (Item.addr it < n)%nat) (Box.items b))
            (all_boxes s')).
Proof.
  intros [ob Hob]. unfold store_item. rewrite Hob.
  assert (∀ x, holds x (Box.set_items ob (Box.items ob ++ [item]))
               = holds x ob || Item.same x item) as Hholds.
  { intros x. unfold holds. simpl. rewrite is_in_app. simpl.
    by rewrite orb_false_r. }
  assert (Item.same item item = true) as Hrefl by by apply same_true.
  destruct (Box.full _); eexists; (split; [done|]);
    unfold box_count, all_boxes;
    cbn [items approved_items_ids not_approved_items_ids closed_boxes
         open_box next_addr];
    rewrite Hob; (split_and!; try done).
  - intros x Hx. rewrite !List.filter_app, !length_app. simpl.
    change (holds x (Box.set_closed (Box.set_items ob (Box.items ob ++ [item]))
                       true))
      with (holds x (Box.set_items ob (Box.items ob ++ [item]))).
    rewrite Hholds, Hx, orb_false_r. destruct (holds x ob); simpl; lia.
  - rewrite !List.filter_app, !length_app. simpl.
    change (holds item
              (Box.set_closed (Box.set_items ob (Box.items ob ++ [item])) true))
      with (holds item (Box.set_items ob (Box.items ob ++ [item]))).
    rewrite Hholds, Hrefl, orb_true_r. destruct (holds item ob); simpl; lia.
  - intros n Hn. rewrite !Forall_app. intros [Hcl Hopen].
    split_and!; try done.
    + repeat constructor. simpl. apply Forall_app. split; [|by repeat constructor].
      by inv Hopen.
    + by repeat constructor.
  - intros x Hx. rewrite !List.filter_app, !length_app. simpl.
    rewrite Hholds, Hx, orb_false_r. by destruct (holds x ob).
  - rewrite !List.filter_app, !length_app. simpl.
    rewrite Hholds, Hrefl, orb_true_r. destruct (holds item ob); simpl; lia.
  - intros n Hn. rewrite !Forall_app. intros [Hcl Hopen].
    split_and!; try done.
    repeat constructor. simpl. apply Forall_app. split; [|by repeat constructor].
    by inv Hopen.
Qed.

Lemma box_count_same_boxes (x : Item.t) (s s' : State) :
  closed_boxes s' = closed_boxes s → open_box s' = open_box s →
  box_count x s' = box_count x s.
Proof. unfold box_count, all_boxes. by intros -> ->. Qed.

Lemma same_false_lt (x y : Item.t) :
  (Item.addr x < Item.addr y)%nat → Item.same x y = false.
Proof. intros H. apply same_false. lia. Qed.

(** A new object joins the indexes under a new identifier: what the two
    branches of [register_item] have in common. *)
Lemma register_entry_preserves (s s' : State) (i : string) (item : Item.t) :
  state_invariant s → well_formed s →
  items s !! i = None →
  Item.addr item = next_addr s →
  items s' = <[i := item]> (items s) →
  next_addr s' = S (next_addr s) →
  is_Some (open_box s') →
  (∀ x, Item.same x item = false → box_count x s' = box_count x s) →
  Forall (λ b, Forall (λ it, (Item.addr it < next_addr s')%nat) (Box.items b))
    (all_boxes s') →
  (Item.approved item = true ∧ box_count item s' = 1%nat ∧
   approved_items_ids s' = approved_items_ids s ++ [i] ∧
   not_approved_items_ids s' = not_approved_items_ids s
   ∨
   Item.approved item = false ∧ box_count item s' = 0%nat ∧
   approved_items_ids s' = approved_items_ids s ∧
   not_approved_items_ids s' = not_approved_items_ids s ++ [i]) →
  state_invariant s' ∧ well_formed s'.
Proof.
  intros (Hap & Hrej & Hunb) (Hnd1 & Hnd2 & _ & Hh1 & Hh2 & Hh3)
    Hnew Haddr Hitems Hnext Hopen Hcount Hboxes Hcase.
  assert (∀ j it, items s !! j = Some it →
            items s' !! j = Some it ∧ j ≠ i ∧ Item.same it item = false)
    as Hold.
  { intros j it Hj. assert (j ≠ i) by congruence. split_and!; [|done|].
    - by rewrite Hitems, lookup_insert_ne.
    - apply same_false_lt. rewrite Haddr. by eapply Hh1. }
  assert (i ∉ approved_items_ids s) as Hni1.
  { intros (it & Hit & _)%Hap. congruence. }
  assert (i ∉ not_approved_items_ids s) as Hni2.
  { intros (it & Hit & _)%Hrej. congruence. }
  assert (items s' !! i = Some item) as Hi by by rewrite Hitems, lookup_insert_eq.
  assert (approved_ok s' ∧ rejected_ok s' ∧ rejects_unboxed s' ∧
          NoDup (approved_items_ids s') ∧ NoDup (not_approved_items_ids s'))
    as (? & ? & ? & ? & ?).
  { unfold approved_ok, rejected_ok, rejects_unboxed.
    destruct Hcase as [(Happ & Hc & -> & ->)|(Happ & Hc & -> & ->)].
    - split_and!; try done.
      + intros j [Hj| ->%list_elem_of_singleton]%elem_of_app.
        * destruct (Hap j Hj) as (it & Hit & ? & Hcnt).
          destruct (Hold j it Hit) as (? & ? & Hne).
          exists it. split_and!; try done. by rewrite Hcount.
        * by exists item.
      + intros j Hj. destruct (Hrej j Hj) as (it & Hit & ?).
        destruct (Hold j it Hit) as (? & ? & Hne). by exists it.
      + intros j it Hj Hit. destruct (Hrej j Hj) as (it' & Hit' & ?).
        destruct (Hold j it' Hit') as (Hit'' & ? & Hne).
        assert (it = it') as -> by congruence.
        rewrite Hcount by done. by eapply Hunb.
      + apply NoDup_app. split_and!; [done| |apply NoDup_singleton].
        intros j Hj ->%list_elem_of_singleton. done.
    - split_and!; try done.
      + intros j Hj. destruct (Hap j Hj) as (it & Hit & ? & Hcnt).
        destruct (Hold j it Hit) as (? & ? & Hne).
        exists it. split_and!; try done. by rewrite Hcount.
      + intros j [Hj| ->%list_elem_of_singleton]%elem_of_app.
        * destruct (Hrej j Hj) as (it & Hit & ?).
          destruct (Hold j it Hit) as (? & ? & Hne). by exists it.
        * by exists item.
      + intros j it [Hj| ->%list_elem_of_singleton]%elem_of_app Hit.
        * destruct (Hrej j Hj) as (it' & Hit' & ?).
          destruct (Hold j it' Hit') as (Hit'' & ? & Hne).
          assert (it = it') as -> by congruence.
          rewrite Hcount by done. by eapply Hunb.
        * by assert (it = item) as -> by congruence.
      + apply NoDup_app. split_and!; [done| |apply NoDup_singleton].
        intros j Hj ->%list_elem_of_singleton. done. }
  split; [done|]. unfold well_formed, heap_ok. split_and!; try done.
  - intros j it. rewrite Hitems, Hnext.
    destruct (decide (i = j)) as [<-|Hne].
    + rewrite lookup_insert_eq. intros [= <-]. lia.
    + rewrite lookup_insert_ne by done. intros Hj%Hh1. lia.
  - intros j1 j2 it1 it2. rewrite Hitems.
    destruct (decide (i = j1)) as [<-|Hne1], (decide (i = j2)) as [<-|Hne2];
      rewrite ?lookup_insert_eq, ?lookup_insert_ne by done; try done.
    + intros [= <-] Hlt%Hh1. lia.
    + intros Hlt%Hh1 [= <-]. lia.
    + apply Hh3.
Qed.

Lemma register_item_preserves (inp : RegisterInput) (s : State) :
  state_invariant s → well_formed s →
  ∃ o s', register_item inp s = Ok (o, s') ∧
          state_invariant s' ∧ well_formed s'.
Proof.
  intros Hinv Hwf. unfold register_item.
  destruct (String.eqb _ _); [by eexists _, _|].
  destruct (bool_decide _) eqn:Hdup; [by eexists _, _|].
  apply bool_decide_eq_false in Hdup.
  assert (items s !! Py.strip (in_id inp) = None) as Hnew.
  { by destruct (items s !! _); [destruct Hdup|]. }
  destruct (in_weight inp) as [w|]; [|by eexists _, _].
  destruct (in_length inp) as [l|]; [|by eexists _, _].
  set (i := Py.strip (in_id inp)) in *.
  set (item := evaluate_item _).
  assert (Item.addr item = next_addr s) as Haddr
    by (unfold item; by rewrite evaluate_item_addr).
  pose proof Hwf as (_ & _ & Hopen & Hh1 & Hh2 & _).
  destruct (Item.approved item) eqn:Happ.
  - match goal with |- context [store_item item ?s2] =>
      destruct (store_item_effect item s2 Hopen)
        as (s3 & -> & Hi3 & Ha3 & Hr3 & Hn3 & Ho3 & Hc3 & Hc3' & Hb3) end.
    cbn [items approved_items_ids not_approved_items_ids closed_boxes
         open_box next_addr] in *.
    eexists _, s3. split; [done|].
    apply (register_entry_preserves s s3 i item); try done.
    + rewrite Hn3. apply Hb3; [lia|].
      by apply (boxes_addr_weaken (next_addr s)); [lia|].
    + left. split_and!; try done. apply Hc3'.
      apply box_count_fresh. by rewrite Haddr.
  - match goal with |- context [save_rejects ?s2] =>
      destruct (save_rejects s2) as [s3|e] eqn:Hsave end.
    + apply save_rejects_open_box in Hsave
        as (Ho & Hcl & Hi3 & Ha3 & Hr3 & _ & Hn3).
      cbn [items approved_items_ids not_approved_items_ids closed_boxes
           open_box next_addr] in *.
      eexists _, s3. split; [done|].
      assert (∀ x, box_count x s3 = box_count x s) as Hc3
        by (intros x; by apply box_count_same_boxes).
      apply (register_entry_preserves s s3 i item); try done.
      * by rewrite Ho.
      * unfold all_boxes. rewrite Hcl, Ho, Hn3.
        by apply (boxes_addr_weaken (next_addr s)); [lia|].
      * right. split_and!; try done. rewrite Hc3.
        apply box_count_fresh. by rewrite Haddr.
    + exfalso. unfold save_rejects in Hsave.
      cbn [items not_approved_items_ids] in Hsave.
      destruct (lookup_all_Some (<[i:=item]> (items s))
                  (not_approved_items_ids s ++ [i])) as [its Hits].
      { intros j [Hj| ->%list_elem_of_singleton]%elem_of_app.
        - destruct Hinv as (_ & Hrej & _).
          destruct (Hrej j Hj) as (it & Hit & _).
          rewrite lookup_insert_ne by congruence. by eexists.
        - rewrite lookup_insert_eq. by eexists. }
      by rewrite Hits in Hsave.
Qed.






Lemma empty_disk_state_ok :
  state_invariant (load_state (initial_state empty_disk)) ∧
  well_formed (load_state (initial_state empty_disk)).
Proof.
  set (s := load_state (initial_state empty_disk)).
  assert (approved_items_ids s = []) as Ha by reflexivity.
  assert (not_approved_items_ids s = []) as Hr by reflexivity.
  assert (items s = ∅) as Hi by reflexivity.
  assert (all_boxes s = [Box.init 1 false []]) as Hb by reflexivity.
  unfold state_invariant, approved_ok, rejected_ok, rejects_unboxed,
    well_formed, heap_ok.
  rewrite Ha, Hr, Hi, Hb. split_and!.
  - intros i Hi'. by inv Hi'.
  - intros i Hi'. by inv Hi'.
  - intros i it Hi'. by inv Hi'.
  - constructor.
  - constructor.
  - by eexists.
  - intros i it H. by rewrite lookup_empty in H.
  - repeat constructor.
  - intros i j it1 it2 H. by rewrite lookup_empty in H.
Qed.



(** ** The properties at sample inputs *)

Lemma remove_item_from_closed_box_witness :
  let s := load_state (initial_state closed_disk) in
  let item := Item.mk 0 "P1" 100 "azul" 15 true [] in
  ∃ pre b post s',
    closed_boxes s = pre ++ b :: post ∧
    Forall (λ b0, Item.is_in item (Box.items b0) = false) pre ∧
    Item.is_in item (Box.items b) = true ∧
    remove_item "P1" s = Ok (Removed, s') ∧
    let b' := Box.set_items b (Item.remove item (Box.items b)) in
    closed_boxes s' = pre ++ b' :: post ∧
    Box.closed b' = Box.closed b ∧ Box.id b' = Box.id b ∧
    open_box s' = Some (Box.init 2 false []) ∧
    disk s' = save_box b' (disk s) ∧
    box_files (disk s') !! _box_filename (Box.id b)
    = Some (Some (Box.to_dict b')) ∧
    (∀ name, name ≠ _box_filename (Box.id b) →
       box_files (disk s') !! name = box_files (disk s) !! name) ∧
    (∃ l1 x l2,
       Box.items b = l1 ++ x :: l2 ∧ Item.is_in item l1 = false ∧
       Item.same item x = true ∧ Box.items b' = l1 ++ l2) ∧
    S (length (Box.items b')) = length (Box.items b) ∧
    (NoDup (map Item.addr (Box.items b)) →
     Item.is_in item (Box.items b') = false) ∧
    items s' = delete (Py.strip "P1") (items s).
Proof.
  cbv zeta.
  assert (items (load_state (initial_state closed_disk)) !! Py.strip "P1"
          = Some (Item.mk 0 "P1" 100 "azul" 15 true [])) as H1
    by (vm_compute; reflexivity).
  assert (open_box (load_state (initial_state closed_disk))
          = Some (Box.init 2 false [])) as H3 by (vm_compute; reflexivity).
  assert (Exists (λ b, Item.is_in (Item.mk 0 "P1" 100 "azul" 15 true [])
                         (Box.items b) = true)
            (closed_boxes (load_state (initial_state closed_disk)))) as H5.
  { assert (closed_boxes (load_state (initial_state closed_disk))
            = [Box.mk 1 true [Item.mk 0 "P1" 100 "azul" 15 true [];
                              Item.mk 1 "P2" 100 "azul" 15 true []]]) as ->
      by (vm_compute; reflexivity).
    apply Exists_cons_hd. reflexivity. }
  exact (proj1 (remove_item_from_closed_box
                  (load_state (initial_state closed_disk)) "P1"
                  (Item.mk 0 "P1" 100 "azul" 15 true [])
                  (Box.init 2 false []) H1 eq_refl H3 eq_refl H5)).
Defined.

Lemma refused_operation_keeps_state_witness :
  let s := load_state (initial_state closed_disk) in
  let inp := {| in_id := "P1"; in_weight := Some 100%float;
                in_color := "verde"; in_length := None |} in
  remove_item " X " s = Ok (NotFound, s) ∧
  ∃ o, register_item inp s = Ok (o, s) ∧
       (Py.strip (in_id inp) ≠ ""%string → o = DuplicateId) ∧
       (Py.strip (in_id inp) = ""%string → o = EmptyId).
Proof.
  cbv zeta. split.
  - apply (proj1 (refused_operation_keeps_state
                    (load_state (initial_state closed_disk)))).
    by vm_compute.
  - apply (proj2 (refused_operation_keeps_state
                    (load_state (initial_state closed_disk)))).
    eexists. by vm_compute.
Defined.

Lemma closed_disk_well_keyed : well_keyed closed_disk.
Proof.
  intros k data Hdata _. unfold closed_disk in Hdata. cbn [box_files] in Hdata.
  apply lookup_singleton_Some in Hdata as [Hname Hdata].
  injection Hdata as <-.
  change "box_0001.json"%string with (_box_filename 1) in Hname.
  apply box_filename_inj in Hname. by subst k.
Qed.

Lemma load_state_idempotent_witness :
  let s1 := load_state (initial_state closed_disk) in
  indexes (load_state s1) = indexes s1 ∧ disk (load_state s1) = disk s1.
Proof.
  cbv zeta.
  exact (load_state_idempotent (initial_state closed_disk)
           closed_disk_well_keyed).
Defined.

Lemma open_box_never_missing_witness :
  let s := load_state (initial_state empty_disk) in
  (∃ b, open_box s = Some b) ∧
  (∀ item, ∃ s', store_item item s = Ok s') ∧
  (∀ inp, register_item inp s ≠ Raise AttributeError) ∧
  (∀ typed, remove_item typed s ≠ Raise AttributeError) ∧
  (∃ r, report_open_box s = Ok r).
Proof.
  cbv zeta.
  exact (proj2 (proj2 open_box_never_missing)
           (load_state (initial_state empty_disk))
           (reach_load (initial_state empty_disk))).
Defined.

Lemma load_boxes_selects_open_box_witness :
  let r := load_boxes closed_disk 0 in
  ∃ m, m ∈ map Box.id (parsed_boxes closed_disk 0) ∧
       (∀ b, b ∈ parsed_boxes closed_disk 0 → Box.id b ≤ m) ∧
       r.1.1.2 = Some (Box.init (m + 1) false []) ∧
       r.1.2 = save_box (Box.init (m + 1) false []) closed_disk ∧
       box_files r.1.2 !! _box_filename (m + 1)
       = Some (Some (Box.to_dict (Box.init (m + 1) false []))).
Proof.
  cbv zeta.
  apply (proj1 (proj2 (proj2 (proj2 (load_boxes_selects_open_box closed_disk 0))))).
  - by vm_compute.
  - repeat constructor.
Defined.

(** ** Further properties: file names and saved boxes *)

Lemma insert_box_commute (m : gmap string (option BoxDict)) (i j : string)
    (x y : option BoxDict) :
  i ≠ j → <[i:=x]> (<[j:=y]> m) = <[j:=y]> (<[i:=x]> m).
Proof. intros H. by apply insert_insert_ne. Qed.

(** X1. Two boxes share a file exactly when they share an identifier, and
    every file that [save_box] writes has a name that [load_boxes] reads. *)
Theorem box_files_by_identifier :
  (∀ n m : Z, _box_filename n = _box_filename m ↔ n = m) ∧
  (∀ k : Z, box_name (_box_filename k) = true) ∧
  (∀ (b : Box.t) (d : Disk),
     is_Some (box_files (save_box b d) !! _box_filename (Box.id b)) ∧
     _box_filename (Box.id b) ∈ Py.sorted String.leb (listdir (save_box b d))).
Proof.
  split_and!.
  - intros n m. split; [apply box_filename_inj|by intros ->].
  - intros k. unfold box_name. by destruct (box_filename_matches k) as [-> ->].
  - intros b d.
    assert (is_Some (box_files (save_box b d) !! _box_filename (Box.id b))) as H
      by (rewrite save_box_lookup; by eexists).
    split; [done|]. by apply elem_of_sorted_listdir.
Qed.

(** X2. [save_box] overwrites: of two saves of boxes with the same
    identifier only the last one counts; saves of boxes with different
    identifiers do not interfere (they commute); no other file and not the
    rejects file is touched. *)
Theorem save_box_overwrites (b b' : Box.t) (d : Disk) :
  (Box.id b = Box.id b' → save_box b (save_box b' d) = save_box b d) ∧
  (Box.id b ≠ Box.id b' →
     save_box b (save_box b' d) = save_box b' (save_box b d) ∧
     box_files (save_box b (save_box b' d)) !! _box_filename (Box.id b')
     = Some (Some (Box.to_dict b'))) ∧
  (∀ name, name ≠ _box_filename (Box.id b) →
     box_files (save_box b d) !! name = box_files d !! name) ∧
  rejects_file (save_box b d) = rejects_file d.
Proof.
  split_and!.
  - intros Hid. unfold save_box. cbn [box_files rejects_file]. rewrite Hid.
    by rewrite insert_insert_eq.
  - intros Hid.
    assert (_box_filename (Box.id b) ≠ _box_filename (Box.id b')) as Hne
      by (intros H%box_filename_inj; done).
    split.
    + unfold save_box. cbn [box_files rejects_file].
      by rewrite insert_box_commute.
    + rewrite save_box_lookup_ne by done. apply save_box_lookup.
  - intros name Hname. by apply save_box_lookup_ne.
  - done.
Qed.

(** ** Further properties: normalized colours *)

Lemma lower_char_idemp (c : ascii) :
  Py.lower_char (Py.lower_char c) = Py.lower_char c.
Proof. destruct c as [[] [] [] [] [] [] [] []]; reflexivity. Qed.

Lemma all_lower_lower (s : string) : all_lower (Py.lower s) = true.
Proof.
  induction s as [|c s IH]; [done|]. simpl.
  by rewrite lower_char_idemp, Ascii.eqb_refl, IH.
Qed.

Lemma all_lower_lstrip (s : string) :
  all_lower s = true → all_lower (Py.lstrip s) = true.
Proof.
  induction s as [|c s IH]; [done|]. simpl.
  intros [Hc Hs]%andb_true_iff. destruct (Py.isspace c); [by apply IH|].
  simpl. by rewrite Hc, Hs.
Qed.

Lemma rstrip_cons (c : ascii) (s : string) :
  Py.rstrip (String c s) =
  match Py.rstrip s with
  | EmptyString => if Py.isspace c then EmptyString else String c EmptyString
  | r => String c r
  end.
Proof. reflexivity. Qed.

Lemma all_lower_rstrip (s : string) :
  all_lower s = true → all_lower (Py.rstrip s) = true.
Proof.
  induction s as [|c s IH]; [done|]. rewrite rstrip_cons.
  cbn [all_lower]. intros [Hc Hs]%andb_true_iff. specialize (IH Hs).
  destruct (Py.rstrip s) as [|c' r].
  - destruct (Py.isspace c); [done|]. simpl. by rewrite Hc.
  - cbn [all_lower] in *. by rewrite Hc, IH.
Qed.

Lemma first_char_lstrip (s : string) :
  is_space_opt (first_char (Py.lstrip s)) = false.
Proof.
  induction s as [|c s IH]; [done|]. simpl.
  destruct (Py.isspace c) eqn:Hc; [done|]. simpl. exact Hc.
Qed.

Lemma first_char_rstrip (s : string) :
  is_space_opt (first_char s) = false →
  is_space_opt (first_char (Py.rstrip s)) = false.
Proof.
  destruct s as [|c s]; [done|]. rewrite rstrip_cons. simpl. intros Hc.
  destruct (Py.rstrip s); [by rewrite Hc|done].
Qed.

Lemma last_char_rstrip (s : string) :
  is_space_opt (last_char (Py.rstrip s)) = false.
Proof.
  induction s as [|c s IH]; [done|]. rewrite rstrip_cons.
  destruct (Py.rstrip s) as [|c' r].
  - destruct (Py.isspace c) eqn:Hc; [done|]. simpl. exact Hc.
  - exact IH.
Qed.

(** What [Item.__init__] stores as the colour is normalized. *)
Lemma normalized_strip_lower (c : string) :
  normalized_color (Py.strip (Py.lower c)) = true.
Proof.
  unfold normalized_color, Py.strip.
  rewrite all_lower_rstrip by apply all_lower_lstrip, all_lower_lower.
  rewrite first_char_rstrip by apply first_char_lstrip.
  by rewrite last_char_rstrip.
Qed.

Lemma strip_lower_idemp (c : string) :
  Py.strip (Py.lower (Py.strip (Py.lower c))) = Py.strip (Py.lower c).
Proof. apply strip_lower_normalized, normalized_strip_lower. Qed.

Lemma item_from_dict_normalized (a : nat) (x : ItemDict) (it : Item.t) :
  Item.from_dict a x = Some it → normalized_color (Item.color it) = true.
Proof.
  unfold Item.from_dict.
  destruct (d_id x), (d_weight x), (d_color x), (d_length x); try done.
  intros [= <-]. apply normalized_strip_lower.
Qed.

Lemma item_from_to_dict (a : nat) (it : Item.t) :
  normalized_color (Item.color it) = true →
  ∃ it', Item.from_dict a (Item.to_dict it) = Some it' ∧
         Item.to_dict it' = Item.to_dict it ∧ Item.addr it' = a.
Proof.
  intros Hc. eexists. split; [done|]. unfold Item.to_dict. simpl.
  by rewrite strip_lower_normalized.
Qed.

Lemma item_from_dicts_to_dicts (n : nat) (its : list Item.t) :
  Forall (λ it, normalized_color (Item.color it) = true) its →
  ∃ its', Item.from_dicts n (map Item.to_dict its)
          = Some (its', (n + length its)%nat) ∧
          map Item.to_dict its' = map Item.to_dict its.
Proof.
  intros Hits. revert n. induction Hits as [|it its Hit _ IH]; intros n.
  - exists []. simpl. by rewrite Nat.add_0_r.
  - rewrite map_cons, from_dicts_cons.
    destruct (item_from_to_dict n it Hit) as (it' & -> & Hd & _).
    destruct (IH (S n)) as (its' & -> & Hds). simpl.
    exists (it' :: its'). split; [do 2 f_equal; lia|]. simpl. by rewrite Hd, Hds.
Qed.

Lemma box_from_to_dict (n : nat) (b : Box.t) :
  Forall (λ it, normalized_color (Item.color it) = true) (Box.items b) →
  ∃ b', Box.from_dict n (Box.to_dict b)
        = Some (b', (n + length (Box.items b))%nat) ∧
        Box.to_dict b' = Box.to_dict b.
Proof.
  intros Hits.
  destruct (item_from_dicts_to_dicts n (Box.items b) Hits) as (its' & Hf & Hd).
  exists (Box.init (Box.id b) (Box.closed b) its'). split.
  - unfold Box.from_dict, Box.to_dict. simpl. by rewrite Hf.
  - unfold Box.to_dict. simpl. by rewrite Hd.
Qed.

(** X6. [Item.__init__] normalizes the colour once and for all: lowering
    and stripping what it stored changes nothing, so an item built by the
    constructor (with any colour text) comes back from [to_dict] then
    [from_dict] with the same six attributes, and so does any item that
    [from_dict] itself built. *)
Theorem constructed_item_round_trip :
  (∀ c : string,
     Py.strip (Py.lower (Py.strip (Py.lower c))) = Py.strip (Py.lower c)) ∧
  (∀ a i w c l ap fr a',
     ∃ item', Item.from_dict a' (Item.to_dict (Item.init a i w c l ap fr))
              = Some item' ∧
              same_attributes item' (Item.init a i w c l ap fr)) ∧
  (∀ a x item a',
     Item.from_dict a x = Some item →
     ∃ item', Item.from_dict a' (Item.to_dict item) = Some item' ∧
              same_attributes item' item).
Proof.
  assert (∀ it a', normalized_color (Item.color it) = true →
            ∃ item', Item.from_dict a' (Item.to_dict it) = Some item' ∧
                     same_attributes item' it) as Hrt.
  { intros it a' Hc. eexists. split; [done|]. unfold same_attributes. simpl.
    by rewrite strip_lower_normalized. }
  split_and!.
  - apply strip_lower_idemp.
  - intros. apply Hrt. apply normalized_strip_lower.
  - intros a x item a' Hx. apply Hrt. by eapply item_from_dict_normalized.
Qed.

(** X3. A box that is saved is read back: whatever else is in the
    directory, after [save_box] the boxes that [load_boxes] reads include
    one with the content of the saved box (items whose colours are
    normalized, as all items built by the program are). *)
Theorem saved_box_is_read_back (b : Box.t) (d : Disk) (n : nat) :
  Forall (λ it, normalized_color (Item.color it) = true) (Box.items b) →
  ∃ b', b' ∈ parsed_boxes (save_box b d) n ∧ Box.to_dict b' = Box.to_dict b.
Proof.
  intros Hits.
  destruct (proj2 (parsed_boxes_records (save_box b d) n)
              (_box_filename (Box.id b)) (Box.to_dict b))
    as (b' & n0 & n1 & Hin & Hb').
  - unfold box_name. by destruct (box_filename_matches (Box.id b)) as [-> ->].
  - apply save_box_lookup.
  - destruct (box_from_to_dict 0 b Hits) as (b0 & Hb0 & _). by eexists.
  - exists b'. split; [done|].
    destruct (box_from_to_dict n0 b Hits) as (b0 & Hb0 & Hd). congruence.
Qed.

Lemma saved_box_is_read_back_witness :
  let b := Box.mk 7 true [Item.init 0 "P1" 100 " AZUL" 15 true []] in
  ∃ b', b' ∈ parsed_boxes (save_box b two_open_disk) 0 ∧
        Box.to_dict b' = Box.to_dict b.
Proof.
  cbv zeta. apply saved_box_is_read_back.
  repeat constructor.
Defined.

(** ** Further properties: the rejects file *)

Lemma item_from_dict_complete (a : nat) (x : ItemDict) :
  is_Some (Item.from_dict a x) ↔ item_dict_complete x = true.
Proof.
  unfold Item.from_dict, item_dict_complete.
  destruct (d_id x), (d_weight x), (d_color x), (d_length x); simpl;
    split; intros H; try done; try (by eexists); by destruct H.
Qed.

Lemma item_from_dicts_complete (n : nat) (xs : list ItemDict) :
  forallb item_dict_complete xs = true →
  ∃ its, Item.from_dicts n xs = Some (its, (n + length xs)%nat) ∧
         length its = length xs ∧
         map Item.addr its = seq n (length xs) ∧
         Forall2 (λ it x, Item.from_dict (Item.addr it) x = Some it) its xs.
Proof.
  revert n. induction xs as [|x xs IH]; intros n Hall.
  - exists []. simpl. by rewrite Nat.add_0_r.
  - simpl in Hall. apply andb_true_iff in Hall as [Hx Hxs].
    rewrite from_dicts_cons.
    destruct (proj2 (item_from_dict_complete n x) Hx) as [it Hit].
    rewrite Hit. simpl.
    destruct (IH (S n) Hxs) as (its & -> & Hlen & Haddr & Hall2). simpl.
    assert (Item.addr it = n) as Hn.
    { unfold Item.from_dict in Hit.
      destruct (d_id x), (d_weight x), (d_color x), (d_length x); try done.
      by injection Hit as <-. }
    exists (it :: its). split_and!.
    + do 2 f_equal. lia.
    + simpl. by rewrite Hlen.
    + simpl. by rewrite Hn, Haddr.
    + constructor; [by rewrite Hn|done].
Qed.

Lemma item_from_dicts_incomplete (n : nat) (xs : list ItemDict) :
  forallb item_dict_complete xs = false → Item.from_dicts n xs = None.
Proof.
  revert n. induction xs as [|x xs IH]; intros n Hall; [done|].
  simpl in Hall. rewrite from_dicts_cons.
  destruct (Item.from_dict n x) as [it|] eqn:Hit; [|done]. simpl.
  assert (item_dict_complete x = true) as Hx
    by (apply (item_from_dict_complete n); by eexists).
  rewrite Hx in Hall. simpl in Hall. by rewrite IH.
Qed.

(** X4. [load_rejects] never fails: a missing file, an unreadable file,
    or a list in which some object lacks one of the keys id, weight,
    color, length all give the empty list (one bad object drops the whole
    list); otherwise every object of the file becomes an item, in the
    order of the file. *)
Theorem load_rejects_tolerant (d : Disk) (n : nat) :
  (rejects_file d = None → load_rejects d n = ([], n)) ∧
  (rejects_file d = Some None → load_rejects d n = ([], n)) ∧
  (∀ data, rejects_file d = Some (Some data) →
     forallb item_dict_complete data = false →
     load_rejects d n = ([], n)) ∧
  (∀ data, rejects_file d = Some (Some data) →
     forallb item_dict_complete data = true →
     ∃ its, load_rejects d n = (its, (n + length data)%nat) ∧
            length its = length data ∧
            Forall2 (λ it x, Item.from_dict (Item.addr it) x = Some it)
              its data).
Proof.
  unfold load_rejects. split_and!.
  - by intros ->.
  - by intros ->.
  - intros data -> Hall. by rewrite item_from_dicts_incomplete.
  - intros data -> Hall.
    destruct (item_from_dicts_complete n data Hall) as (its & -> & ? & _ & ?).
    by exists its.
Qed.

Lemma lookup_all_Forall2 (m : gmap string Item.t) (ids : list string)
    (its : list Item.t) :
  lookup_all m ids = Some its → Forall2 (λ i it, m !! i = Some it) ids its.
Proof.
  revert its. induction ids as [|i ids IH]; intros its; simpl.
  - intros [= <-]. constructor.
  - destruct (m !! i) as [it|] eqn:Hi; [|done]. simpl.
    destruct (lookup_all m ids) as [its'|]; [|done]. simpl.
    intros [= <-]. constructor; [done|]. by apply IH.
Qed.

Lemma lookup_all_None (m : gmap string Item.t) (ids : list string) :
  lookup_all m ids = None ↔ ∃ i, i ∈ ids ∧ m !! i = None.
Proof.
  induction ids as [|i ids IH]; simpl.
  - split; [done|]. intros (i & Hi & _). by inv Hi.
  - destruct (m !! i) as [it|] eqn:Hi; simpl.
    + destruct (lookup_all m ids) as [its'|]; simpl.
      * split; [done|]. intros (j & Hj & Hnone).
        apply elem_of_cons in Hj as [->|Hj]; [congruence|].
        assert (Some its' = None) as Habs; [|done].
        apply IH. by exists j.
      * split; [|done]. intros _.
        destruct (proj1 IH eq_refl) as (j & Hj & Hnone).
        exists j. split; [by right|done].
    + split; [|done]. intros _. exists i. split; [by left|done].
Qed.

(** X5. The rejects file round trip.  [save_rejects] raises [KeyError]
    exactly when some rejected identifier has no entry in the item map;
    otherwise it changes nothing but the rejects file, and what
    [load_rejects] then reads back is, in the same order, the rejected
    items with the same content (their colours being normalized). *)
Theorem rejects_round_trip (s : State) :
  (save_rejects s = Raise KeyError ↔
   ∃ i, i ∈ not_approved_items_ids s ∧ items s !! i = None) ∧
  (∀ s' n,
     save_rejects s = Ok s' →
     (∀ i it, i ∈ not_approved_items_ids s → items s !! i = Some it →
              normalized_color (Item.color it) = true) →
     items s' = items s ∧ approved_items_ids s' = approved_items_ids s ∧
     not_approved_items_ids s' = not_approved_items_ids s ∧
     closed_boxes s' = closed_boxes s ∧ open_box s' = open_box s ∧
     box_files (disk s') = box_files (disk s) ∧
     ∃ its, load_rejects (disk s') n
            = (its, (n + length (not_approved_items_ids s))%nat) ∧
            Forall2 (λ i it', ∃ it, items s !! i = Some it ∧
                                    Item.to_dict it' = Item.to_dict it)
              (not_approved_items_ids s) its).
Proof.
  split.
  - unfold save_rejects. rewrite <-lookup_all_None.
    destruct (lookup_all _ _); [|done]. split; [done|done].
  - intros s' n Hsave Hnorm.
    pose proof (save_rejects_open_box s s' Hsave)
      as (Ho & Hc & Hi & Ha & Hr & Hb & _).
    split_and!; try done.
    unfold save_rejects in Hsave.
    destruct (lookup_all _ _) as [its|] eqn:Hl; [|done].
    injection Hsave as <-. apply lookup_all_Forall2 in Hl.
    assert (Forall (λ it, normalized_color (Item.color it) = true) its) as Hn.
    { clear -Hl Hnorm. induction Hl as [|i it ids its Hi _ IH]; [constructor|].
      constructor.
      - apply (Hnorm i); [by left|done].
      - apply IH. intros j it' Hj. apply Hnorm. by right. }
    destruct (item_from_dicts_to_dicts n its Hn) as (its' & Hf & Hd).
    exists its'. unfold load_rejects. cbn [disk rejects_file].
    rewrite Hf. split.
    + by rewrite (Forall2_length _ _ _ Hl).
    + clear -Hl Hd. revert its' Hd.
      induction Hl as [|i it ids its Hi _ IH]; intros [|it' its'] Hd;
        try done; try (by constructor).
      rewrite !map_cons in Hd.
      remember (Item.to_dict it') as x eqn:Hx.
      remember (Item.to_dict it) as y eqn:Hy.
      injection Hd as Hd1 Hd2. subst x y.
      constructor; [by exists it|by apply IH].
Qed.

(** ** Further properties: reconstruction *)

(** X7. Reconstruction reads the disk and nothing else: two runs of
    [load_state] on the same disk build the same indexes and leave the
    same disk, whatever the variables held before and wherever the new
    objects are allocated. *)
Theorem load_state_reads_disk_only (s1 s2 : State) :
  disk s1 = disk s2 →
  indexes (load_state s1) = indexes (load_state s2) ∧
  disk (load_state s1) = disk (load_state s2).
Proof. apply load_state_indexes_disk. Qed.

Lemma load_state_reads_disk_only_witness :
  let s1 := initial_state closed_disk in
  let s2 := {| items := ∅; approved_items_ids := ["P9"%string];
               not_approved_items_ids := []; closed_boxes := [];
               open_box := None; disk := closed_disk; next_addr := 5 |} in
  indexes (load_state s1) = indexes (load_state s2) ∧
  disk (load_state s1) = disk (load_state s2).
Proof.
  cbv zeta.
  exact (load_state_reads_disk_only (initial_state closed_disk)
           {| items := ∅; approved_items_ids := ["P9"%string];
              not_approved_items_ids := []; closed_boxes := [];
              open_box := None; disk := closed_disk; next_addr := 5 |}
           eq_refl).
Defined.

(** X8. The order and the content of the indexes that [load_state]
    builds: the approved order lists the approved items of the closed
    boxes, box after box, then those of the open box; the rejected order
    lists the rejects file; and the item map gives, for an identifier, the
    last object read with that identifier, the rejects file being read
    after the boxes (so a rejected item hides a boxed item with the same
    identifier). *)
Theorem load_state_index_order (s0 : State) :
  let s := load_state s0 in
  let r := load_boxes (disk s0) (next_addr s0) in
  let rejects := (load_rejects r.1.2 r.2).1 in
  approved_items_ids s
  = map Item.id (List.filter Item.approved (items_of (all_boxes s))) ∧
  not_approved_items_ids s = map Item.id rejects ∧
  (∀ i, items s !! i =
        match last (List.filter (λ it, String.eqb (Item.id it) i) rejects) with
        | Some it => Some it
        | None => last (List.filter (λ it, String.eqb (Item.id it) i)
                          (items_of (all_boxes s)))
        end) ∧
  (∀ i it, items s !! i = Some it → Item.id it = i).
Proof.
  cbv zeta. destruct (load_state_sources s0) as (Ha & Hr & _ & Hid).
  split_and!; try done.
  - intros i. unfold all_boxes. rewrite load_state_unfold. cbv zeta.
    cbn [items closed_boxes open_box].
    set (r := load_boxes (disk s0) (next_addr s0)).
    rewrite index_boxes_flat.
    destruct (foldl_index_reject_spec (load_rejects r.1.2 r.2).1
                ((foldl index_box_item (∅, [])
                    (items_of (r.1.1.1 ++ match r.1.1.2 with
                                          | Some b => [b]
                                          | None => []
                                          end))).1, [])) as [_ Hm].
    rewrite Hm. destruct (last _) as [it|]; [done|]. cbn [fst].
    destruct (foldl_index_box_item_spec
                (items_of (r.1.1.1 ++ match r.1.1.2 with
                                      | Some b => [b]
                                      | None => []
                                      end)) (∅, [])) as [_ Hm'].
    rewrite Hm'. by destruct (last _).
  - intros i it Hit. by destruct (Hid i it Hit).
Qed.

(** ** Further properties: the flags of the boxes in memory *)

Lemma store_item_closed_boxes (item : Item.t) (s s' : State) :
  store_item item s = Ok s' →
  closed_boxes s' = closed_boxes s ∨
  ∃ b, closed_boxes s' = closed_boxes s ++ [b] ∧ Box.closed b = true ∧
       Box.full b = true.
Proof.
  unfold store_item. destruct (open_box s) as [ob|]; [|done].
  destruct (Box.full _) eqn:Hfull; intros [= <-]; [|by left].
  right. eexists. by split_and!.
Qed.

Lemma register_item_closed_boxes (inp : RegisterInput) (s : State)
    (o : register_outcome) (s' : State) :
  register_item inp s = Ok (o, s') →
  closed_boxes s' = closed_boxes s ∨
  ∃ b, closed_boxes s' = closed_boxes s ++ [b] ∧ Box.closed b = true ∧
       Box.full b = true.
Proof.
  unfold register_item.
  destruct (String.eqb _ _); [intros [= <- <-]; by left|].
  destruct (bool_decide _); [intros [= <- <-]; by left|].
  destruct (in_weight inp) as [w|]; [|intros [= <- <-]; by left].
  destruct (in_length inp) as [l|]; [|intros [= <- <-]; by left].
  destruct (Item.approved _).
  - match goal with |- context [store_item ?i ?s2] =>
      destruct (store_item i s2) as [s3|e] eqn:Hstore end; [|done].
    intros [= <- <-]. by apply store_item_closed_boxes in Hstore.
  - match goal with |- context [save_rejects ?s2] =>
      destruct (save_rejects s2) as [s3|e] eqn:Hsave end; [|done].
    intros [= <- <-]. apply save_rejects_open_box in Hsave as (_ & -> & _).
    by left.
Qed.

Lemma reachable_closed_flags (s : State) :
  Reachable s → Forall (λ b, Box.closed b = true) (closed_boxes s).
Proof.
  induction 1 as [s0|s inp o s' _ IH Hreg|s typed o s' _ IH Hrem].
  - destruct (load_state_fields s0) as (-> & _).
    destruct (load_boxes_spec (disk s0) (next_addr s0))
      as (_ & _ & _ & _ & Hperm & _).
    apply Forall_forall. intros b Hb. rewrite Hperm in Hb.
    by apply list_elem_of_In, filter_In in Hb as [_ Hb].
  - apply register_item_closed_boxes in Hreg as [->|(b & -> & Hb & _)];
      [done|].
    apply Forall_app. split; [done|]. by constructor.
  - apply remove_item_flags in Hrem as (Hflags & _).
    apply Forall_forall. intros b Hb.
    assert (Box.closed b ∈ map Box.closed (closed_boxes s')) as Hin
      by by apply list_elem_of_fmap_2.
    rewrite Hflags in Hin.
    apply list_elem_of_fmap in Hin as (b0 & -> & Hb0).
    rewrite Forall_forall in IH. by apply IH.
Qed.

(** X9. At most one box is open in memory, at any time: after
    [load_state] and through every registration and removal, every box of
    [closed_boxes] has its closed flag set and the open box has not. *)
Theorem reachable_one_open_box (s : State) :
  Reachable s →
  Forall (λ b, Box.closed b = true) (closed_boxes s) ∧
  ∃ ob, open_box s = Some ob ∧ Box.closed ob = false.
Proof.
  intros Hs. split; [by apply reachable_closed_flags|by apply reachable_open].
Qed.

Lemma reachable_one_open_box_witness :
  let s := load_state (initial_state two_open_disk) in
  Forall (λ b, Box.closed b = true) (closed_boxes s) ∧
  ∃ ob, open_box s = Some ob ∧ Box.closed ob = false.
Proof.
  cbv zeta.
  exact (reachable_one_open_box (load_state (initial_state two_open_disk))
           (reach_load (initial_state two_open_disk))).
Defined.

(** ** Further properties: capacity *)

Lemma length_item_remove (x : Item.t) (l : list Item.t) :
  (length (Item.remove x l) ≤ length l)%nat.
Proof.
  induction l as [|y l IH]; [done|]. simpl.
  destruct (Item.same x y); simpl; lia.
Qed.

Lemma remove_from_closed_capacity (item : Item.t) (bs : list Box.t) (d : Disk) :
  Forall (λ b, (length (Box.items b) ≤ BOX_CAPACITY)%nat) bs →
  Forall (λ b, (length (Box.items b) ≤ BOX_CAPACITY)%nat)
    (remove_from_closed item bs d).1.
Proof.
  induction 1 as [|b bs Hb Hbs IH]; [constructor|]. simpl.
  destruct (Item.is_in item (Box.items b)).
  - simpl. constructor; [|done]. simpl.
    pose proof (length_item_remove item (Box.items b)). lia.
  - destruct (remove_from_closed item bs d). simpl in *. by constructor.
Qed.

Lemma store_item_capacity (item : Item.t) (s s' : State) :
  within_capacity s → store_item item s = Ok s' →
  within_capacity s' ∧
  (closed_boxes s' = closed_boxes s ∨
   ∃ b, closed_boxes s' = closed_boxes s ++ [b] ∧ Box.closed b = true ∧
        length (Box.items b) = BOX_CAPACITY).
Proof.
  intros [(ob & Hob & Hlen) Hcl]. unfold store_item. rewrite Hob.
  unfold Box.full. cbn [Box.items Box.set_items].
  rewrite length_app. cbn [length].
  destruct (BOX_CAPACITY <=? length (Box.items ob) + 1)%nat eqn:Hfull;
    intros [= <-]; unfold within_capacity; cbn [open_box closed_boxes].
  - apply Nat.leb_le in Hfull.
    assert (length (Box.items ob ++ [item]) = BOX_CAPACITY) as Heq
      by (rewrite length_app; simpl; lia).
    split_and!.
    + eexists. split; [done|]. simpl. unfold BOX_CAPACITY. lia.
    + apply Forall_app. split; [done|]. constructor; [|done]. simpl. lia.
    + right. eexists. by split_and!.
  - apply Nat.leb_gt in Hfull. split_and!; [|done|by left].
    eexists. split; [done|]. simpl. rewrite length_app. simpl. lia.
Qed.

Lemma register_item_capacity (inp : RegisterInput) (s : State)
    (o : register_outcome) (s' : State) :
  within_capacity s → register_item inp s = Ok (o, s') →
  within_capacity s' ∧
  (closed_boxes s' = closed_boxes s ∨
   ∃ b, closed_boxes s' = closed_boxes s ++ [b] ∧ Box.closed b = true ∧
        length (Box.items b) = BOX_CAPACITY).
Proof.
  intros Hs. unfold register_item.
  destruct (String.eqb _ _); [intros [= <- <-]; split; [done|by left]|].
  destruct (bool_decide _); [intros [= <- <-]; split; [done|by left]|].
  destruct (in_weight inp) as [w|]; [|intros [= <- <-]; split; [done|by left]].
  destruct (in_length inp) as [l|]; [|intros [= <- <-]; split; [done|by left]].
  destruct (Item.approved _).
  - match goal with |- context [store_item ?i ?s2] =>
      destruct (store_item i s2) as [s3|e] eqn:Hstore end; [|done].
    intros [= <- <-]. by apply store_item_capacity in Hstore.
  - match goal with |- context [save_rejects ?s2] =>
      destruct (save_rejects s2) as [s3|e] eqn:Hsave end; [|done].
    intros [= <- <-].
    apply save_rejects_open_box in Hsave as (Ho & Hc & _).
    unfold within_capacity. rewrite Ho, Hc. split; [done|by left].
Qed.

Lemma remove_item_capacity (typed : string) (s : State) (o : remove_outcome)
    (s' : State) :
  within_capacity s → remove_item typed s = Ok (o, s') → within_capacity s'.
Proof.
  intros [(ob & Hob & Hlen) Hcl]. unfold remove_item.
  destruct (items s !! _) as [item|];
    [|intros [= <- <-]; split; [by exists ob|done]].
  destruct (Item.approved item).
  - rewrite Hob. destruct (Item.is_in item (Box.items ob)).
    + intros [= <- <-]. split; [|done]. eexists. split; [done|]. simpl.
      pose proof (length_item_remove item (Box.items ob)). lia.
    + pose proof (remove_from_closed_capacity item (closed_boxes s) (disk s)
                    Hcl) as Hcl'.
      destruct (remove_from_closed _ _ _). intros [= <- <-].
      split; [by exists ob|done].
  - destruct (Py.in_str _ _).
    + match goal with |- context [save_rejects ?s2] =>
        destruct (save_rejects s2) as [s3|e] eqn:Hsave end; [|done].
      apply save_rejects_open_box in Hsave as (Ho & Hc & _).
      intros [= <- <-]. unfold within_capacity. cbn [open_box closed_boxes].
      rewrite Ho, Hc. split; [by exists ob|done].
    + intros [= <- <-]. split; [by exists ob|done].
Qed.

(** X10. Capacity is respected once it is: in a state whose open box
    holds fewer than [BOX_CAPACITY] items and whose closed boxes hold at
    most [BOX_CAPACITY], every registration and every removal leads to
    such a state again; and a box that a registration closes holds exactly
    [BOX_CAPACITY] items at that moment. *)
Theorem capacity_is_kept (s : State) :
  within_capacity s →
  (∀ inp o s',
     register_item inp s = Ok (o, s') →
     within_capacity s' ∧
     (closed_boxes s' = closed_boxes s ∨
      ∃ b, closed_boxes s' = closed_boxes s ++ [b] ∧ Box.closed b = true ∧
           length (Box.items b) = BOX_CAPACITY)) ∧
  (∀ typed o s', remove_item typed s = Ok (o, s') → within_capacity s').
Proof.
  intros Hs. split.
  - intros inp o s'. by apply register_item_capacity.
  - intros typed o s'. by apply remove_item_capacity.
Qed.

Lemma empty_disk_within_capacity :
  within_capacity (load_state (initial_state empty_disk)).
Proof.
  split; [|constructor]. exists (Box.init 1 false []). split; [reflexivity|].
  simpl. unfold BOX_CAPACITY. lia.
Qed.

Lemma capacity_is_kept_witness :
  let s := load_state (initial_state empty_disk) in
  let inp := {| in_id := "P1"; in_weight := Some 100%float;
                in_color := "verde"; in_length := Some 20%float |} in
  ∃ o s', register_item inp s = Ok (o, s') ∧ within_capacity s'.
Proof.
  cbv zeta.
  destruct (register_item
              {| in_id := "P1"; in_weight := Some 100%float;
                 in_color := "verde"; in_length := Some 20%float |}
              (load_state (initial_state empty_disk)))
    as [[o s']|e] eqn:Heq; [|vm_compute in Heq; discriminate Heq].
  exists o, s'. split; [reflexivity|].
  exact (proj1 (proj1 (capacity_is_kept (load_state (initial_state empty_disk))
                         empty_disk_within_capacity) _ o s' Heq)).
Defined.

(** ** Further properties: the item map through registration and removal *)







(** ** Further properties: the final report *)

Lemma bump_keys (r : string) (d : list (string * nat)) :
  map fst (bump r d) = if bool_decide (r ∈ map fst d) then map fst d
                       else map fst d ++ [r].
Proof.
  induction d as [|[k q] d IH].
  - case_bool_decide as Hin; [by inv Hin|done].
  - cbn [bump]. destruct (String.eqb_spec k r) as [->|Hne].
    + rewrite bool_decide_eq_true_2; [done|]. cbn. by left.
    + cbn [map fst]. rewrite IH.
      repeat case_bool_decide; try done.
      * exfalso. match goal with H : ¬ _ |- _ => apply H end. by right.
      * exfalso.
        match goal with H : r ∈ _ :: _ |- _ =>
          apply elem_of_cons in H as [?|?] end; [congruence|done].
Qed.

Lemma bump_NoDup (r : string) (d : list (string * nat)) :
  NoDup (map fst d) → NoDup (map fst (bump r d)).
Proof.
  intros Hd. rewrite bump_keys. case_bool_decide as Hin; [done|].
  apply NoDup_app. split_and!; [done| |apply NoDup_singleton].
  intros x Hx ->%list_elem_of_singleton. done.
Qed.

Lemma bump_count (r r' : string) (d : list (string * nat)) :
  count_for r' (bump r d)
  = (count_for r' d + if String.eqb r' r then 1 else 0)%nat.
Proof.
  induction d as [|[k q] d IH]; simpl.
  - rewrite (String.eqb_sym r r'). by destruct (String.eqb r' r).
  - destruct (String.eqb_spec k r) as [->|Hne]; simpl.
    + rewrite (String.eqb_sym r r').
      destruct (String.eqb r' r); lia.
    + destruct (String.eqb_spec k r') as [->|Hne'].
      * destruct (String.eqb_spec r' r); [congruence|lia].
      * exact IH.
Qed.

Lemma bump_positive (r : string) (d : list (string * nat)) :
  Forall (λ kq, (0 < kq.2)%nat) d → Forall (λ kq, (0 < kq.2)%nat) (bump r d).
Proof.
  induction 1 as [|[k q] d Hq Hd IH]; simpl.
  - repeat constructor.
  - destruct (String.eqb k r); constructor; simpl in *; first [done|lia].
Qed.

Lemma foldl_bump_spec (rs : list string) (d : list (string * nat)) :
  NoDup (map fst d) → Forall (λ kq, (0 < kq.2)%nat) d →
  let d' := foldl (λ d reason, bump reason d) d rs in
  NoDup (map fst d') ∧ Forall (λ kq, (0 < kq.2)%nat) d' ∧
  ∀ r, count_for r d' = (count_for r d + occurrences r rs)%nat.
Proof.
  revert d. induction rs as [|r0 rs IH]; intros d Hnd Hpos; cbv zeta.
  - split_and!; try done; intros r; unfold occurrences; simpl; lia.
  - simpl. destruct (IH (bump r0 d)) as (Hnd' & Hpos' & Hc).
    { by apply bump_NoDup. }
    { by apply bump_positive. }
    split_and!; try done. intros r. rewrite Hc, bump_count.
    unfold occurrences. simpl. destruct (String.eqb r r0); simpl; lia.
Qed.

Lemma count_reasons_spec (its : list Item.t) :
  NoDup (map fst (count_reasons its)) ∧
  Forall (λ kq, (0 < kq.2)%nat) (count_reasons its) ∧
  ∀ r, count_for r (count_reasons its)
       = occurrences r (concat (map Item.failure_reasons its)).
Proof.
  unfold count_reasons.
  assert (∀ d, NoDup (map fst d) → Forall (λ kq, (0 < kq.2)%nat) d →
    let d' := foldl (λ d it, foldl (λ d reason, bump reason d) d
                               (Item.failure_reasons it)) d its in
    NoDup (map fst d') ∧ Forall (λ kq, (0 < kq.2)%nat) d' ∧
    ∀ r, count_for r d'
         = (count_for r d
            + occurrences r (concat (map Item.failure_reasons its)))%nat)
    as Hgen.
  { induction its as [|it its IH]; intros d Hnd Hpos; cbv zeta.
    - split_and!; try done; intros r; unfold occurrences; simpl; lia.
    - simpl.
      destruct (foldl_bump_spec (Item.failure_reasons it) d Hnd Hpos)
        as (Hnd1 & Hpos1 & Hc1).
      destruct (IH _ Hnd1 Hpos1) as (Hnd2 & Hpos2 & Hc2).
      split_and!; try done. intros r. rewrite Hc2, Hc1.
      unfold occurrences. rewrite List.filter_app, length_app. lia. }
  destruct (Hgen [] (NoDup_nil_2) (Forall_nil_2 _)) as (? & ? & Hc).
  split_and!; try done.
Qed.

(** When building the report fails, and what it says when it does not. *)
Lemma final_report_spec (s : State) :
  (report_text s = Raise KeyError ↔
   ∃ i, i ∈ not_approved_items_ids s ∧ items s !! i = None) ∧
  (report_text s = Raise AttributeError ↔
   (∀ i, i ∈ not_approved_items_ids s → is_Some (items s !! i)) ∧
   open_box s = None) ∧
  (∀ rep, report_text s = Ok rep →
     total_approved rep = length (approved_items_ids s) ∧
     total_not_approved rep = length (not_approved_items_ids s) ∧
     total_boxes rep = length (closed_boxes s) ∧
     (∃ ob, open_box s = Some ob ∧ open_box_id rep = Box.id ob ∧
            open_box_size rep = length (Box.items ob) ∧
            open_box_ids rep = map Item.id (Box.items ob)) ∧
     (not_approved_items_ids s = [] → reasons_section rep = None) ∧
     (not_approved_items_ids s ≠ [] →
        ∃ its counts,
          lookup_all (items s) (not_approved_items_ids s) = Some its ∧
          reasons_section rep = Some counts ∧
          NoDup (map fst counts) ∧
          Forall (λ kq, (0 < kq.2)%nat) counts ∧
          ∀ r, count_for r counts
               = occurrences r (concat (map Item.failure_reasons its)))).
Proof.
  unfold report_text.
  pose proof (lookup_all_None (items s) (not_approved_items_ids s)) as HN.
  destruct (not_approved_items_ids s) as [|i0 ids] eqn:Hids.
  - cbn [length]. split_and!.
    + split; [by destruct (open_box s)|]. intros (i & Hi & _). by inv Hi.
    + split.
      * destruct (open_box s); [done|]. intros _. split; [|done].
        intros i Hi. by inv Hi.
      * intros [_ ->]. done.
    + intros rep. destruct (open_box s) as [ob|]; [|done]. intros [= <-].
      cbn. split_and!; try done. by exists ob.
  - cbn [length].
    destruct (lookup_all (items s) (i0 :: ids)) as [its|] eqn:Hl.
    + assert (∀ i, i ∈ i0 :: ids → is_Some (items s !! i)) as Hall.
      { intros i Hi. destruct (items s !! i) eqn:Hi'; [by eexists|].
        assert (Some its = None) as Habs; [|done]. apply HN. by exists i. }
      split_and!.
      * split; [by destruct (open_box s)|].
        intros (i & Hi & Hnone). destruct (Hall i Hi) as [? ?]. congruence.
      * split; [destruct (open_box s); [done|]; by intros _|].
        by intros [_ ->].
      * intros rep. destruct (open_box s) as [ob|]; [|done]. intros [= <-].
        cbn. split_and!; try done; [by exists ob|]. intros _.
        destruct (count_reasons_spec its) as (? & ? & ?).
        by exists its, (count_reasons its).
    + split_and!.
      * split; [intros _; by apply HN|done].
      * split; [done|]. intros [Hall _].
        destruct (proj1 HN eq_refl) as (i & Hi & Hnone).
        destruct (Hall i Hi) as [? ?]. congruence.
      * done.
Qed.

(** X12. The final report.  [generate_final_report] raises [KeyError]
    exactly when some rejected identifier has no entry in the item map,
    otherwise [AttributeError] exactly when there is no open box, and
    otherwise, the report being printed by then, [FileNotFoundError]
    exactly when the directory of the reports does not exist; in the
    remaining case it saves the report under the name made from the clock
    reading, over a file of that name if there is one, and touches no
    other file.  In the report, printed or saved, the totals are the
    lengths of the two orders and of the closed boxes, the open box is
    described by its identifier, its size and the identifiers of its
    items, and the section of the reasons is there exactly when some item
    is rejected: it then lists each reason once, with a count that is
    positive and equal to the number of times the reason occurs among the
    rejected items. *)
Theorem final_report_figures (ts : string) (dir : ReportDir) (s : State) :
  (generate_final_report ts dir s = ReportRaise KeyError ↔
   ∃ i, i ∈ not_approved_items_ids s ∧ items s !! i = None) ∧
  (generate_final_report ts dir s = ReportRaise AttributeError ↔
   (∀ i, i ∈ not_approved_items_ids s → is_Some (items s !! i)) ∧
   open_box s = None) ∧
  ((∃ rep, generate_final_report ts dir s = FileNotFoundError rep) ↔
   (∀ i, i ∈ not_approved_items_ids s → is_Some (items s !! i)) ∧
   is_Some (open_box s) ∧ dir = None) ∧
  (∀ rep files',
     generate_final_report ts dir s = ReportSaved rep files' →
     ∃ files, dir = Some files ∧
              files' !! report_path ts = Some rep ∧
              ∀ name, name ≠ report_path ts →
                      files' !! name = files !! name) ∧
  (∀ rep,
     generate_final_report ts dir s = FileNotFoundError rep ∨
     (∃ files', generate_final_report ts dir s = ReportSaved rep files') →
     total_approved rep = length (approved_items_ids s) ∧
     total_not_approved rep = length (not_approved_items_ids s) ∧
     total_boxes rep = length (closed_boxes s) ∧
     (∃ ob, open_box s = Some ob ∧ open_box_id rep = Box.id ob ∧
            open_box_size rep = length (Box.items ob) ∧
            open_box_ids rep = map Item.id (Box.items ob)) ∧
     (not_approved_items_ids s = [] → reasons_section rep = None) ∧
     (not_approved_items_ids s ≠ [] →
        ∃ its counts,
          lookup_all (items s) (not_approved_items_ids s) = Some its ∧
          reasons_section rep = Some counts ∧
          NoDup (map fst counts) ∧
          Forall (λ kq, (0 < kq.2)%nat) counts ∧
          ∀ r, count_for r counts
               = occurrences r (concat (map Item.failure_reasons its)))).
Proof.
  destruct (final_report_spec s) as (HK & HA & Hfig).
  unfold generate_final_report.
  destruct (report_text s) as [rep0|e] eqn:Hrep.
  - assert ((∀ i, i ∈ not_approved_items_ids s → is_Some (items s !! i)) ∧
            is_Some (open_box s)) as [Hall Hopen].
    { destruct (Hfig rep0 eq_refl) as (_ & _ & _ & (ob & Hob & _) & _ & _).
      split; [|by eexists]. intros i Hi.
      destruct (items s !! i) eqn:Hi'; [by eexists|].
      assert (Ok rep0 = Raise KeyError) as Habs; [|done].
      apply HK. by exists i. }
    split_and!.
    + split; [by destruct dir|]. intros Hdang. by apply HK in Hdang.
    + split; [by destruct dir|]. intros Hno. by apply HA in Hno.
    + split.
      * intros [rep Hr]. by destruct dir.
      * intros (_ & _ & ->). by exists rep0.
    + intros rep files'. destruct dir as [files|]; [|done].
      intros [= <- <-]. exists files. split; [done|].
      split; [apply lookup_insert_eq|].
      intros name Hname. by apply lookup_insert_ne.
    + intros rep Hr. apply Hfig.
      destruct dir as [files|], Hr as [Hr|[files' Hr]]; congruence.
  - split_and!.
    + rewrite <-HK. split; congruence.
    + rewrite <-HA. split; congruence.
    + split; [by intros [rep ?]|]. intros (Hall & [ob Hob] & _). exfalso.
      destruct e.
      * destruct (proj1 HA eq_refl) as [_ Hnone]. congruence.
      * destruct (proj1 HK eq_refl) as (i & Hi & Hnone).
        destruct (Hall i Hi) as [? ?]. congruence.
    + done.
    + intros rep [Hr|[files' Hr]]; done.
Qed.

(** X13. The report in the states the invariant describes.  When the
    invariant holds and there is an open box, building the report never
    fails, so the run depends on the directory of the reports alone: if it
    exists the report is saved under the name made from the clock reading
    and the other files are as they were; if it does not,
    [FileNotFoundError] is raised once the same report has been printed. *)
Theorem final_report_saved (ts : string) (files : gmap string Report)
    (s : State) :
  state_invariant s → is_Some (open_box s) →
  ∃ rep,
    generate_final_report ts (Some files) s
    = ReportSaved rep (<[report_path ts := rep]> files) ∧
    generate_final_report ts None s = FileNotFoundError rep ∧
    total_not_approved rep = length (not_approved_items_ids s) ∧
    (not_approved_items_ids s ≠ [] → is_Some (reasons_section rep)).
Proof.
  intros (_ & Hrej & _) [ob Hob].
  destruct (final_report_spec s) as (HK & HA & Hfig).
  unfold generate_final_report.
  destruct (report_text s) as [rep|e] eqn:Hrep.
  - exists rep. split; [done|]. split; [done|].
    destruct (Hfig rep eq_refl) as (_ & Hn & _ & _ & _ & Hsec).
    split; [done|]. intros Hne.
    destruct (Hsec Hne) as (its & counts & _ & -> & _). by eexists.
  - exfalso. destruct e.
    + destruct (proj1 HA eq_refl) as [_ Hnone]. congruence.
    + destruct (proj1 HK eq_refl) as (i & Hi & Hnone).
      destruct (Hrej i Hi) as (it & Hit & _). congruence.
Qed.

Lemma final_report_saved_witness :
  let s0 := load_state (initial_state empty_disk) in
  let inp := {| in_id := "P9"; in_weight := Some 50%float;
                in_color := "roxo"; in_length := Some 15%float |} in
  ∃ s1,
    register_item inp s0 = Ok (RegisteredRejected, s1) ∧
    ∃ rep,
      generate_final_report "20250101_120000" (Some ∅) s1
      = ReportSaved rep (<[report_path "20250101_120000" := rep]> ∅) ∧
      generate_final_report "20250101_120000" None s1
      = FileNotFoundError rep ∧
      total_not_approved rep = length (not_approved_items_ids s1) ∧
      (not_approved_items_ids s1 ≠ [] → is_Some (reasons_section rep)).
Proof.
  cbv zeta.
  assert (∃ s1,
            register_item
              {| in_id := "P9"; in_weight := Some 50%float;
                 in_color := "roxo"; in_length := Some 15%float |}
              (load_state (initial_state empty_disk))
            = Ok (RegisteredRejected, s1)) as [s1 H1].
  { eexists. vm_compute. reflexivity. }
  exists s1. split; [exact H1|].
  destruct (register_item_preserves
              {| in_id := "P9"; in_weight := Some 50%float;
                 in_color := "roxo"; in_length := Some 15%float |}
              (load_state (initial_state empty_disk))
              (proj1 empty_disk_state_ok) (proj2 empty_disk_state_ok))
    as (o & s1' & H1' & Hinv & Hwf).
  rewrite H1 in H1'. injection H1' as _ <-.
  exact (final_report_saved "20250101_120000" ∅ s1 Hinv
           (proj1 (proj2 (proj2 Hwf)))).
Defined.

(** ** Further properties: memory and disk stay in step *)









